(** * broker: the request pipeline of cmd/broker, embedded in Rocq

    The development follows the Go sources package by package:
    - [strconv], [simplelru], [fiber], [prometheus]: the parts of the
      libraries the service calls, as far as the service relies on them;
    - [metric]: cmd/broker/metric/metric.go;
    - [request]: cmd/broker/request/{logger,tracer}.go;
    - [main]: cmd/broker/main.go, the middleware chain and the start-up code.

    Go code that panics or calls [log.Fatal] is modelled in an error monad;
    process-wide mutable objects (the LRU cache, the metric map, the default
    Prometheus registry) and the per-request [fiber.Ctx] are threaded through
    an explicit state. *)

From Stdlib Require Import ZArith String Ascii List Lia Bool DecimalString DecimalPos DecimalZ.
From stdpp Require Import base option list gmap strings fin_maps.

#[local] Set Warnings "-clear-no-such-hyp".

Local Open Scope string_scope.
Local Open Scope Z_scope.

(** ** Outcomes of Go code *)

(** A Go call returns normally, panics (a failed type assertion, a nil
    dereference, a duplicate metric registration) or terminates the process
    through [log.Fatal]. *)
Inductive Result (A : Type) : Type :=
| Ok (a : A)
| Panic (msg : string)
| Fatal (msg : string).
Arguments Ok {A} a.
Arguments Panic {A} msg.
Arguments Fatal {A} msg.

Definition rbind {A B : Type} (r : Result A) (k : A -> Result B) : Result B :=
  match r with
  | Ok a => k a
  | Panic msg => Panic msg
  | Fatal msg => Fatal msg
  end.

Definition returns {A : Type} (r : Result A) : Prop :=
  match r with Ok _ => True | _ => False end.

(** ** strconv.ParseInt(s, 10, 64) *)

Module strconv.

Inductive NumError : Type := ErrSyntax | ErrRange.

Definition maxUint64 : Z := 2 ^ 64 - 1.

(** Smallest number whose product with the base 10 exceeds [maxUint64]. *)
Definition cutoff10 : Z := maxUint64 / 10 + 1.

(** The value of a byte as a base-10 digit.  Letters are digits of value at
    least 10 in [ParseUint] and are refused by its check [d >= base]; every
    other byte (the underscore too, since the base is not 0) is a syntax
    error directly. *)
Definition digit (c : ascii) : option Z :=
  let b := Z.of_N (N_of_ascii c) in
  if (48 <=? b) && (b <=? 57) then Some (b - 48) else None.

(** The loop of [ParseUint]: [n] is the value read so far.  [n * 10] cannot
    exceed 64 bits below the cutoff; [n + d] wraps around exactly when the
    unbounded sum exceeds [maxUint64]. *)
Fixpoint parseUintFrom (s : string) (n : Z) : Z * option NumError :=
  match s with
  | EmptyString => (n, None)
  | String c rest =>
      match digit c with
      | None => (0, Some ErrSyntax)
      | Some d =>
          if cutoff10 <=? n then (maxUint64, Some ErrRange)
          else
            let n1 := n * 10 + d in
            if maxUint64 <? n1 then (maxUint64, Some ErrRange)
            else parseUintFrom rest n1
      end
  end.

Definition ParseUint (s : string) : Z * option NumError :=
  match s with
  | EmptyString => (0, Some ErrSyntax)
  | _ => parseUintFrom s 0
  end.

Definition ParseInt (s : string) : Z * option NumError :=
  match s with
  | EmptyString => (0, Some ErrSyntax)
  | String c0 rest =>
      let neg := Ascii.eqb c0 "-"%char in
      let s' := if Ascii.eqb c0 "+"%char || neg then rest else s in
      let '(un, err) := ParseUint s' in
      match err with
      | Some ErrSyntax => (0, Some ErrSyntax)
      | _ =>
          let cutoff := 2 ^ 63 in
          if negb neg && (cutoff <=? un) then (cutoff - 1, Some ErrRange)
          else if neg && (cutoff <? un) then (- cutoff, Some ErrRange)
          else ((if neg then - un else un), None)
      end
  end.

End strconv.

(** Go's [int(x)] for an [int64] [x], with [int] 64 bits wide: the value
    reduced to the signed 64-bit range. *)
Definition int_of_int64 (x : Z) : Z := (x + 2 ^ 63) mod 2 ^ 64 - 2 ^ 63.

(** ** hashicorp/golang-lru/v2/simplelru, at strings *)

Module simplelru.

(** An entry of the eviction list: key and value. *)
Definition Entry : Type := (string * string)%type.

(** [evictList] is the recency list, most recently used entry first.  The
    Go structure also keeps [items], a map from each key to its entry in
    the list; it is an index of the list, and is read here by searching the
    list for the key. *)
Record LRU : Type := mkLRU {
  size : Z;
  evictList : list Entry
}.

(** [c.items[key]]: the entry of [key], if any. *)
Fixpoint items (l : list Entry) (key : string) : option Entry :=
  match l with
  | [] => None
  | e :: rest => if String.eqb (fst e) key then Some e else items rest key
  end.

(** [evictList.Remove(ent)] for the entry of [key]. *)
Fixpoint listRemove (l : list Entry) (key : string) : list Entry :=
  match l with
  | [] => []
  | e :: rest =>
      if String.eqb (fst e) key then rest else e :: listRemove rest key
  end.

(** [evictList.MoveToFront(ent)]. *)
Definition MoveToFront (l : list Entry) (ent : Entry) : list Entry :=
  ent :: listRemove l (fst ent).

(** [NewLRU(size, nil)]: refuses a size that is not positive ([None] stands
    for the nil cache returned together with the error). *)
Definition NewLRU (sz : Z) : option LRU :=
  if sz <=? 0 then None else Some (mkLRU sz []).

Definition Contains (c : LRU) (key : string) : bool :=
  match items (evictList c) key with Some _ => true | None => false end.

(** [Get]: a hit moves the entry to the front and returns its value. *)
Definition Get (c : LRU) (key : string) : option string * LRU :=
  match items (evictList c) key with
  | Some ent => (Some (snd ent), mkLRU (size c) (MoveToFront (evictList c) ent))
  | None => (None, c)
  end.

(** [removeOldest]: drops the entry at the back of the list. *)
Definition removeOldest (c : LRU) : LRU :=
  mkLRU (size c) (removelast (evictList c)).

(** [Add]: updates and promotes an existing entry; otherwise pushes a new
    entry at the front and, when the list is then longer than [size],
    removes the oldest one.  The boolean is Go's [evicted]. *)
Definition Add (c : LRU) (key value : string) : bool * LRU :=
  match items (evictList c) key with
  | Some ent =>
      (false, mkLRU (size c) ((key, value) :: listRemove (evictList c) key))
  | None =>
      let c' := mkLRU (size c) ((key, value) :: evictList c) in
      let evict := size c <? Z.of_nat (length (evictList c')) in
      (evict, if evict then removeOldest c' else c')
  end.

Definition Len (c : LRU) : Z := Z.of_nat (length (evictList c)).

Definition Keys (c : LRU) : list string := map fst (evictList c).

End simplelru.

(** ** cmd/broker/model *)

Module model.

(** Modelled from the spec: the declarations of [model.ErrorResponse] and
    [model.HealthCheckResponse] (package cmd/broker/model) are not among the
    sources.  main.go builds them with the fields [TimeStamp] and [Message],
    respectively [TimeStamp] and [Status]; the spec gives their JSON form as
    an object with "timeStamp" and "message", respectively "timeStamp" and
    "status".  Time stamps are instants in nanoseconds. *)
Inductive Payload : Type :=
| ErrorResponse (TimeStamp : Z) (Message : string)
| HealthCheckResponse (TimeStamp : Z) (Status : string).

End model.

(** ** gofiber/fiber/v2: requests, responses, the per-request context *)

Module fiber.

Record Request : Type := mkRequest {
  Method : string;
  Path : string;
  IP : string;
  Header : gmap string string
}.

(** A response body: nothing, the JSON encoding of a payload ([c.JSON]), a
    plain string ([c.SendString]), or a page produced by a collaborator (the
    Prometheus exposition, the profiler). *)
Inductive Body : Type :=
| NoBody
| JSON (v : model.Payload)
| Text (s : string)
| Page (producer : string).

(** What [c.Locals] stores: Go values of type [any]. *)
Inductive Local : Type :=
| LString (s : string)
| LTracer
| LSpan (name : string)
| LLogger (production : bool) (fields : list (string * string)).

(** [fiber.Ctx]: the request, the locals, the user context (the span it
    carries) and the response under construction. *)
Record Ctx : Type := mkCtx {
  Req : Request;
  Locals : gmap string Local;
  UserContext : option string;
  StatusCode : Z;
  RespBody : Body;
  RespHeader : gmap string string
}.

Definition AcquireCtx (r : Request) : Ctx := mkCtx r ∅ None 200 NoBody ∅.

(** [fiber.Route], as far as [Initialize] reads it. *)
Record Route : Type := mkRoute { RouteMethod : string; RoutePath : string }.

(** [*fiber.Error]. *)
Record Error : Type := mkError { Code : Z; Message : string }.

Definition HeaderXRequestID : string := "X-Request-ID".
Definition HeaderRetryAfter : string := "Retry-After".
Definition HeaderContentType : string := "Content-Type".
Definition MIMEApplicationJSON : string := "application/json".

Record Response : Type := mkResponse {
  respStatus : Z;
  respBody : Body;
  respHeader : gmap string string
}.

Definition response (c : Ctx) : Response :=
  mkResponse (StatusCode c) (RespBody c) (RespHeader c).

End fiber.

(** ** prometheus/client_golang *)

Module prometheus.

(** The two kinds of collectors the service creates.  A counter holds its
    count; a histogram holds its bucket boundaries and the values observed
    so far, newest first (the per-bucket counts, the sum and the count that
    the library exposes are functions of them).  The service only passes
    integers converted to [float64]. *)
Inductive Collector : Type :=
| Counter (count : Z)
| Histogram (buckets : list Z) (observations : list Z).

(** [promauto.NewCounter] and [promauto.NewHistogram] register the new
    collector with the default registerer and panic when the registration
    fails, which it does when the name is registered already.  [reg] holds
    the names registered so far by the service. *)
Definition MustRegister (reg : gset string) (name : string) : Result (gset string) :=
  if decide (name ∈ reg)
  then Panic "duplicate metrics collector registration attempted"
  else Ok ({[name]} ∪ reg).

End prometheus.

(** ** cmd/broker/metric/metric.go *)

Module metric.

Import prometheus.

Definition HttpRequestCountMetricName : string := "http_request_count".
Definition HttpRequestDurationMetricName : string := "http_request_duration_ms".
Definition HttpRequestDurationMicroMetricName : string := "http_request_duration_micro".

(** The class [_A-Za-z] of the regular expression. *)
Definition identChar (c : ascii) : bool :=
  let b := N_of_ascii c in
  (b =? 95)%N || ((65 <=? b)%N && (b <=? 90)%N) || ((97 <=? b)%N && (b <=? 122)%N).

(** [metricNameRegex.ReplaceAllString(s, "")] for the expression
    "[^_A-Za-z]+": every maximal run of characters outside the class is
    replaced by the empty string, so exactly the characters of the class
    remain.  Go matches runes; a rune outside ASCII is encoded by bytes that
    are all outside the class, so the byte-wise reading agrees. *)
Fixpoint ReplaceAllString (s : string) : string :=
  match s with
  | EmptyString => EmptyString
  | String c rest =>
      if identChar c then String c (ReplaceAllString rest)
      else ReplaceAllString rest
  end.

(** [metricNameRegex] is the constant expression above; the record keeps
    the map. *)
Record MetricPublisher : Type := mkMetricPublisher {
  metricMap : gmap string Collector
}.

Definition NewMetricPublisher : MetricPublisher := mkMetricPublisher ∅.

(** [fmt.Sprintf("%s_%s", a, b)]. *)
Definition Sprintf_s_s (a b : string) : string := a +:+ "_" +:+ b.

Definition GetMetricName (ctx : fiber.Ctx) : string :=
  ReplaceAllString
    (Sprintf_s_s (fiber.Method (fiber.Req ctx)) (fiber.Path (fiber.Req ctx))).

Definition PublishCounter (mc : MetricPublisher) (prefix : string) (ctx : fiber.Ctx)
  : Result MetricPublisher :=
  let key := Sprintf_s_s prefix (GetMetricName ctx) in
  match metricMap mc !! key with
  | None => Ok mc
  | Some (Counter n) => Ok (mkMetricPublisher (<[key := Counter (n + 1)]> (metricMap mc)))
  | Some _ => Panic "interface conversion: interface {} is not prometheus.Counter"
  end.

Definition GetHistogram (mc : MetricPublisher) (prefix : string) (ctx : fiber.Ctx)
    (value : Z) : Result MetricPublisher :=
  let key := Sprintf_s_s prefix (GetMetricName ctx) in
  match metricMap mc !! key with
  | None => Ok mc
  | Some (Histogram bs obs) =>
      Ok (mkMetricPublisher (<[key := Histogram bs (value :: obs)]> (metricMap mc)))
  | Some _ => Panic "interface conversion: interface {} is not prometheus.Histogram"
  end.

(** main.go publishes histograms through [PublishHistogram]; metric.go
    declares the method with that signature and role as [GetHistogram]. *)
Definition PublishHistogram := GetHistogram.

Definition InsertHistogram (st : MetricPublisher * gset string)
    (metricName metricDescription : string) (buckets : list Z)
  : Result (MetricPublisher * gset string) :=
  rbind (MustRegister st.2 metricName) (fun reg =>
  Ok (mkMetricPublisher (<[metricName := Histogram buckets []]> (metricMap st.1)), reg)).

Definition InsertCounter (st : MetricPublisher * gset string)
    (metricName metricDescription : string)
  : Result (MetricPublisher * gset string) :=
  rbind (MustRegister st.2 metricName) (fun reg =>
  Ok (mkMetricPublisher (<[metricName := Counter 0]> (metricMap st.1)), reg)).

Definition latencyBuckets : list Z := [1; 2; 4; 8; 10; 25; 50; 100; 250; 500; 1000].

(** The body of the loop of [Initialize] for one route. *)
Definition installRoute (st : MetricPublisher * gset string) (route : fiber.Route)
  : Result (MetricPublisher * gset string) :=
  let key := fiber.RouteMethod route +:+ "_" +:+ fiber.RoutePath route in
  let postfix := ReplaceAllString key in
  rbind (InsertCounter st
           (Sprintf_s_s HttpRequestCountMetricName postfix)
           ("Number of HTTP requests for " +:+ key)) (fun st1 =>
  InsertHistogram st1
    (Sprintf_s_s HttpRequestDurationMetricName postfix)
    ("Duration of HTTP requests for " +:+ key)
    latencyBuckets).

(** [Initialize(app)], over [routes = app.GetRoutes()]. *)
Fixpoint Initialize (st : MetricPublisher * gset string) (routes : list fiber.Route)
  : Result (MetricPublisher * gset string) :=
  match routes with
  | [] => Ok st
  | route :: rest => rbind (installRoute st route) (fun st' => Initialize st' rest)
  end.

End metric.

(** ** cmd/broker/request *)

Module request.

(** The type assertion on [ctx.Locals("logger")] panics when the local is
    missing or holds another type.  The check that follows it panics on a nil
    pointer of the right type; the stages of [main] never store one, and the
    locals have no value for it. *)
Definition GetLogger (ctx : fiber.Ctx) : Result (bool * list (string * string)) :=
  match fiber.Locals ctx !! "logger" with
  | Some (fiber.LLogger production fields) => Ok (production, fields)
  | Some _ => Panic "interface conversion: interface {} is not a zap.Logger pointer"
  | None => Panic "interface conversion: interface {} is nil, not a zap.Logger pointer"
  end.

Definition GetTracer (ctx : fiber.Ctx) : Result unit :=
  match fiber.Locals ctx !! "tracer" with
  | Some fiber.LTracer => Ok tt
  | Some _ => Panic "interface conversion: interface {} is not a zipkin.Tracer pointer"
  | None => Panic "interface conversion: interface {} is nil, not a zipkin.Tracer pointer"
  end.

End request.

(** Setters of [fiber.Ctx], as pure functions on the record. *)
Module ctx.

Import fiber.

(** [c.Locals(key, value)]. *)
Definition SetLocal (key : string) (v : Local) (c : Ctx) : Ctx :=
  mkCtx (Req c) (<[key := v]> (Locals c)) (UserContext c)
        (StatusCode c) (RespBody c) (RespHeader c).

(** [c.SetUserContext(ctx)], for the context carrying [span]. *)
Definition SetUserContext (span : string) (c : Ctx) : Ctx :=
  mkCtx (Req c) (Locals c) (Some span) (StatusCode c) (RespBody c) (RespHeader c).

(** [c.Set(key, value)] on the response header ([Set] is reserved). *)
Definition SetHeader (key value : string) (c : Ctx) : Ctx :=
  mkCtx (Req c) (Locals c) (UserContext c) (StatusCode c) (RespBody c)
        (<[key := value]> (RespHeader c)).

Definition Status (code : Z) (c : Ctx) : Ctx :=
  mkCtx (Req c) (Locals c) (UserContext c) code (RespBody c) (RespHeader c).

Definition SetBody (b : Body) (c : Ctx) : Ctx :=
  mkCtx (Req c) (Locals c) (UserContext c) (StatusCode c) b (RespHeader c).

(** [c.JSON(v)]: the encoded value becomes the body, with its content
    type. *)
Definition JSON (v : model.Payload) (c : Ctx) : Ctx :=
  SetHeader HeaderContentType MIMEApplicationJSON (SetBody (fiber.JSON v) c).

(** [utils.StatusMessage], for the codes the service sends. *)
Definition StatusMessage (code : Z) : string :=
  if code =? 200 then "OK"
  else if code =? 404 then "Not Found"
  else if code =? 500 then "Internal Server Error"
  else "".

(** [c.SendStatus(code)]: sets the status and, when the body is empty, the
    status message as body. *)
Definition SendStatus (code : Z) (c : Ctx) : Ctx :=
  let c' := Status code c in
  match RespBody c' with
  | NoBody => SetBody (Text (StatusMessage code)) c'
  | _ => c'
  end.

(** [fiber.DefaultErrorHandler]. *)
Definition DefaultErrorHandler (e : Error) (c : Ctx) : Ctx :=
  SetBody (Text (Message e))
    (Status (Code e) (SetHeader HeaderContentType "text/plain; charset=utf-8" c)).

End ctx.

(** ** cmd/broker/main.go *)

Module main.

Import fiber.

(** What the service sends to its sinks: spans to the tracer, lines to the
    logger.  A span is known by its name; its parent is the span of the
    context it was started from. *)
Inductive Event : Type :=
| SpanStart (name : string) (parent : option string)
| SpanFinish (name : string)
| SpanTag (span key value : string)
| LogLine (level message : string) (fields : list (string * string))
          (values : list (string * Z)).

(** A [*zap.Logger]: production loggers drop debug lines; the fields are
    those attached with [zap.Fields]. *)
Definition Logger : Type := (bool * list (string * string))%type.

(** The decision of the limiter (a collaborator) for the request at hand,
    with the values it puts in its own headers. *)
Inductive Admission : Type :=
| Accept (remaining reset : string)
| Reject (retryAfter : string).

(** The process-wide state: the objects the closures of [main] share, the
    sinks, and the sources of randomness and time ([uuids n] is the [n]-th
    identifier drawn, [clock n] the [n]-th reading of the clock, in
    nanoseconds).  [trace] has the newest event first. *)
Record World : Type := mkWorld {
  log : Logger;
  userCache : option simplelru.LRU;
  metricPublisher : metric.MetricPublisher;
  registry : gset string;
  opsProcessed : Z;
  trace : list Event;
  uuids : nat -> string;
  uuidsDrawn : nat;
  clock : nat -> Z;
  clockReads : nat
}.

Definition State : Type := (World * Ctx)%type.

(** Request-time code: state passing with panics. *)
Definition M (A : Type) : Type := State -> Result (A * State).

Definition ret {A : Type} (a : A) : M A := fun st => Ok (a, st).

Definition bind {A B : Type} (m : M A) (k : A -> M B) : M B :=
  fun st => rbind (m st) (fun r => k r.1 r.2).

Definition panic {A : Type} (msg : string) : M A := fun _ => Panic msg.

Definition lift {A : Type} (r : Result A) : M A :=
  fun st => rbind r (fun a => Ok (a, st)).

Definition getCtx : M Ctx := fun st => Ok (st.2, st).
Definition getWorld : M World := fun st => Ok (st.1, st).
Definition modifyCtx (f : Ctx -> Ctx) : M unit := fun st => Ok (tt, (st.1, f st.2)).
Definition modifyWorld (f : World -> World) : M unit := fun st => Ok (tt, (f st.1, st.2)).

Declare Scope go_scope.
Delimit Scope go_scope with go.
Notation "x <- e ;; k" := (bind e (fun x => k))
  (at level 100, e at next level, right associativity) : go_scope.
Notation "e ;; k" := (bind e (fun _ => k))
  (at level 100, right associativity) : go_scope.
Local Open Scope go_scope.

(** An [error] returned by a handler; [None] is nil. *)
Definition Err : Type := option Error.

(** A handler with its continuation [c.Next()]. *)
Definition Handler : Type := M Err -> M Err.

(** *** Updates of the world *)

Definition emitEvent (e : Event) (w : World) : World :=
  mkWorld (log w) (userCache w) (metricPublisher w) (registry w) (opsProcessed w)
          (e :: trace w) (uuids w) (uuidsDrawn w) (clock w) (clockReads w).

Definition setUserCache (lru : simplelru.LRU) (w : World) : World :=
  mkWorld (log w) (Some lru) (metricPublisher w) (registry w) (opsProcessed w)
          (trace w) (uuids w) (uuidsDrawn w) (clock w) (clockReads w).

Definition setMetricPublisher (mc : metric.MetricPublisher) (w : World) : World :=
  mkWorld (log w) (userCache w) mc (registry w) (opsProcessed w)
          (trace w) (uuids w) (uuidsDrawn w) (clock w) (clockReads w).

Definition incOpsProcessed (w : World) : World :=
  mkWorld (log w) (userCache w) (metricPublisher w) (registry w) (opsProcessed w + 1)
          (trace w) (uuids w) (uuidsDrawn w) (clock w) (clockReads w).

Definition drawUUID (w : World) : World :=
  mkWorld (log w) (userCache w) (metricPublisher w) (registry w) (opsProcessed w)
          (trace w) (uuids w) (S (uuidsDrawn w)) (clock w) (clockReads w).

Definition readClock (w : World) : World :=
  mkWorld (log w) (userCache w) (metricPublisher w) (registry w) (opsProcessed w)
          (trace w) (uuids w) (uuidsDrawn w) (clock w) (S (clockReads w)).

(** *** Collaborators *)

Definition emit (e : Event) : M unit := modifyWorld (emitEvent e).

(** [time.Now()]. *)
Definition time_Now : M Z :=
  w <- getWorld ;; modifyWorld readClock ;; ret (clock w (clockReads w)).

(** [time.Since(start)], a duration in nanoseconds. *)
Definition time_Since (start : Z) : M Z :=
  t <- time_Now ;; ret (t - start).

(** [Duration.Milliseconds] and [Duration.Microseconds]: integer division,
    truncated. *)
Definition Milliseconds (d : Z) : Z := Z.quot d 1000000.
Definition Microseconds (d : Z) : Z := Z.quot d 1000.

(** [uuid.New().String()], and the generator of the request-id
    middleware: the next identifier of the source. *)
Definition uuid_New : M string :=
  w <- getWorld ;; modifyWorld drawUUID ;; ret (uuids w (uuidsDrawn w)).

(** [tracer.StartSpanFromContext(ctx, name)] for the context carrying
    [parent]; the handle returned is the name. *)
Definition StartSpanFromContext (parent : option string) (name : string) : M string :=
  emit (SpanStart name parent) ;; ret name.

Definition Finish (span : string) : M unit := emit (SpanFinish span).

Definition Tag (span key value : string) : M unit := emit (SpanTag span key value).

Definition Info (l : Logger) (msg : string) (values : list (string * Z)) : M unit :=
  emit (LogLine "info" msg l.2 values).

Definition Debug (l : Logger) (msg : string) : M unit :=
  if l.1 then ret tt else emit (LogLine "debug" msg l.2 []).

(** [c.Locals(key).(string)]. *)
Definition LocalString (key : string) : M string :=
  c <- getCtx ;;
  match Locals c !! key with
  | Some (LString s) => ret s
  | _ => panic "interface conversion: interface {} is not string"
  end.

(** [c.Locals(key).(zipkin.Span)]. *)
Definition LocalSpan (key : string) : M string :=
  c <- getCtx ;;
  match Locals c !! key with
  | Some (LSpan s) => ret s
  | _ => panic "interface conversion: interface {} is not zipkin.Span"
  end.

(** [strconv.FormatInt(n, 10)]. *)
Definition FormatInt (n : Z) : string :=
  DecimalString.NilZero.string_of_int (Z.to_int n).

(** *** The middleware chain, in the order [main] binds it *)

Section Handlers.

(** The router (a collaborator): whether a route registered for a method
    and a path serves a request. *)
Variable routeMatches : string -> string -> Request -> bool.

(** [app.Get("/metrics", ...)]: the Prometheus exposition. *)
Definition metricsRoute : Handler := fun _ =>
  modifyCtx (ctx.SetBody (Page "promhttp")) ;; ret None.

(** [pprof.New()]: serves the paths under /debug/pprof itself (what it
    answers there is the profiler's business) and passes every other
    request on. *)
Definition pprof_New : Handler := fun next =>
  c <- getCtx ;;
  let path := Path (Req c) in
  if (String.length path <? 12)%nat || negb (String.prefix "/debug/pprof" path)
  then next
  else modifyCtx (ctx.SetBody (Page "pprof")) ;; ret None.

(** The four bytes of U+1F913 in UTF-8. *)
Definition nerdFace : string :=
  String (ascii_of_nat 240) (String (ascii_of_nat 159)
    (String (ascii_of_nat 164) (String (ascii_of_nat 147) EmptyString))).

Definition limitMessage : string :=
  "Too many requests. Maybe you should slow down? " +:+ nerdFace.

(** The [LimitReached] callback of the limiter configuration. *)
Definition LimitReached : M Err :=
  now <- time_Now ;;
  modifyCtx (ctx.JSON (model.ErrorResponse now limitMessage)) ;;
  ret None.

(** [limiter.New] with the sliding window: a rejected request gets the
    Retry-After header and the callback, without [c.Next()]; an admitted
    one continues down the chain and gets the rate headers afterwards. *)
Definition limiter_New (decision : Admission) : Handler := fun next =>
  match decision with
  | Reject retryAfter =>
      modifyCtx (ctx.SetHeader HeaderRetryAfter retryAfter) ;;
      LimitReached
  | Accept remaining reset =>
      err <- next ;;
      modifyCtx (ctx.SetHeader "X-RateLimit-Limit" "30") ;;
      modifyCtx (ctx.SetHeader "X-RateLimit-Remaining" remaining) ;;
      modifyCtx (ctx.SetHeader "X-RateLimit-Reset" reset) ;;
      ret err
  end.

(** The tracing middleware: the root span, named after the path. *)
Definition zipkinMiddleware : Handler := fun next =>
  c <- getCtx ;;
  rspan <- StartSpanFromContext (UserContext c) (Path (Req c)) ;;
  modifyCtx (ctx.SetLocal "tracer" LTracer) ;;
  modifyCtx (ctx.SetLocal "parentSpan" (LSpan rspan)) ;;
  modifyCtx (ctx.SetUserContext rspan) ;;
  _ <- next ;;
  Finish rspan ;;
  ret None.

(** [requestid.New()]: the identifier is the request's own header when it
    has one, a generated one otherwise; it goes to the response header
    and to the locals. *)
Definition requestid_New : Handler := fun next =>
  c <- getCtx ;;
  let got := default "" (Header (Req c) !! HeaderXRequestID) in
  rid <- (if String.eqb got "" then uuid_New else ret got) ;;
  modifyCtx (ctx.SetHeader HeaderXRequestID rid) ;;
  modifyCtx (ctx.SetLocal "requestid" (LString rid)) ;;
  next.

(** The cache look-up of the identity middleware: a resident key is read
    with [Get]; another one gets a new identifier, stored with [Add].  A
    nil cache is dereferenced by [Contains]. *)
Definition resolveUser (ip : string) : M string :=
  w <- getWorld ;;
  match userCache w with
  | None => panic "invalid memory address or nil pointer dereference"
  | Some cache =>
      if simplelru.Contains cache ip then
        let got := simplelru.Get cache ip in
        modifyWorld (setUserCache got.2) ;;
        ret (default "" got.1)
      else
        userId <- uuid_New ;;
        modifyWorld (setUserCache (simplelru.Add cache ip userId).2) ;;
        ret userId
  end.

(** The identity middleware. *)
Definition userMiddleware : Handler := fun next =>
  c <- getCtx ;;
  lift (request.GetTracer c) ;;
  userSpan <- StartSpanFromContext (UserContext c) "resolveUser" ;;
  userId <- resolveUser (IP (Req c)) ;;
  modifyCtx (ctx.SetLocal "userId" (LString userId)) ;;
  Finish userSpan ;;
  next.

(** The three publications of the logging middleware after [c.Next()]. *)
Definition publishMetrics (startTime : Z) : M unit :=
  c <- getCtx ;;
  w <- getWorld ;;
  mc1 <- lift (metric.PublishCounter (metricPublisher w)
                 metric.HttpRequestCountMetricName c) ;;
  ms <- time_Since startTime ;;
  mc2 <- lift (metric.PublishHistogram mc1
                 metric.HttpRequestDurationMetricName c (Milliseconds ms)) ;;
  us <- time_Since startTime ;;
  mc3 <- lift (metric.PublishHistogram mc2
                 metric.HttpRequestDurationMicroMetricName c (Microseconds us)) ;;
  modifyWorld (setMetricPublisher mc3).

(** The logging middleware. *)
Definition loggingMiddleware : Handler := fun next =>
  c <- getCtx ;;
  lift (request.GetTracer c) ;;
  createLoggerSpan <- StartSpanFromContext (UserContext c) "createLogger" ;;
  requestID <- LocalString "requestid" ;;
  userId <- LocalString "userId" ;;
  w <- getWorld ;;
  let logger : Logger :=
    ((log w).1,
     ((log w).2 ++
      [("RequestID", requestID); ("method", Method (Req c)); ("path", Path (Req c));
       ("scope", "client-request"); ("userId", userId)])%list) in
  modifyCtx (ctx.SetLocal "logger" (LLogger logger.1 logger.2)) ;;
  Finish createLoggerSpan ;;
  startTime <- time_Now ;;
  lift (request.GetTracer c) ;;
  infoSpan <- StartSpanFromContext (UserContext c) "infoLog" ;;
  Info logger "Request Started" [("startTime", startTime)] ;;
  Finish infoSpan ;;
  _ <- next ;;
  modifyWorld incOpsProcessed ;;
  publishMetrics startTime ;;
  millis <- time_Since startTime ;;
  micros <- time_Since startTime ;;
  Info logger "Request Completed"
    [("timeElapsedMillis", Milliseconds millis);
     ("timeElapsedMicros", Microseconds micros)] ;;
  ret None.

(** The middleware that tags the root span. *)
Definition spanTagsMiddleware : Handler := fun next =>
  span <- LocalSpan "parentSpan" ;;
  userId <- LocalString "userId" ;;
  Tag span "userId" userId ;;
  requestID <- LocalString "requestid" ;;
  Tag span "requestId" requestID ;;
  c <- getCtx ;;
  Tag span "method" (Method (Req c)) ;;
  Tag span "path" (Path (Req c)) ;;
  _ <- next ;;
  c' <- getCtx ;;
  Tag span "status" (FormatInt (StatusCode c')) ;;
  ret None.

(** [app.Get("/health", ...)].  The deferred [health.Finish()] runs when
    the handler returns. *)
Definition healthRoute : Handler := fun _ =>
  c <- getCtx ;;
  let parentContext := UserContext c in
  lift (request.GetTracer c) ;;
  health <- StartSpanFromContext parentContext "health" ;;
  logTrace <- StartSpanFromContext (Some health) "get-logger" ;;
  logr <- lift (request.GetLogger c) ;;
  Debug logr "Creating health check response" ;;
  Finish logTrace ;;
  jsonTrace <- StartSpanFromContext (Some health) "marshal-json" ;;
  now <- time_Now ;;
  modifyCtx (ctx.JSON (model.HealthCheckResponse now "OK")) ;;
  Finish jsonTrace ;;
  modifyCtx (ctx.SendStatus 200) ;;
  Finish health ;;
  ret None.

(** How an entry of the application's stack was registered. *)
Inductive Binding : Type :=
| Use
| Get (path : string).

Definition serves (b : Binding) (r : Request) : bool :=
  match b with
  | Use => true
  | Get path => routeMatches "GET" path r
  end.

(** The stack of [app], in registration order. *)
Definition stack (decision : Admission) : list (Binding * Handler) :=
  [ (Get "/metrics", metricsRoute);
    (Use, pprof_New);
    (Use, limiter_New decision);
    (Use, zipkinMiddleware);
    (Use, requestid_New);
    (Use, userMiddleware);
    (Use, loggingMiddleware);
    (Use, spanTagsMiddleware);
    (Get "/health", healthRoute) ].

(** The error of the router when no further entry serves the request.
    Every request that gets this far has passed the middleware above,
    which drop the error of [c.Next()]. *)
Definition notFound : M Err :=
  c <- getCtx ;;
  ret (Some (mkError 404 ("Cannot " +:+ Method (Req c) +:+ " " +:+ Path (Req c)))).

(** [c.Next()] from a position of the stack: the first later entry that
    serves the request runs, with the rest as its own [c.Next()]. *)
Fixpoint next (entries : list (Binding * Handler)) : M Err :=
  match entries with
  | [] => notFound
  | (b, h) :: rest =>
      c <- getCtx ;;
      if serves b (Req c) then h (next rest) else next rest
  end.

(** The application's handler for one request: a fresh context, the
    stack, the error handler for an error that reaches the top. *)
Definition serve (decision : Admission) (r : Request) (w : World)
  : Result (Response * World) :=
  rbind (next (stack decision) (w, AcquireCtx r)) (fun res =>
    let c := res.2.2 in
    let c' := match res.1 with
              | None => c
              | Some e => ctx.DefaultErrorHandler e c
              end in
    Ok (response c', res.2.1)).

End Handlers.

(** *** Start-up: the body of [main] up to [app.Listen] *)

(** What [main] reads from its environment: the variables, whether each of
    the three constructors of the tracer succeeds, the route table of the
    application as [app.GetRoutes()] returns it, and the sources of
    identifiers and time. *)
Record Env : Type := mkEnv {
  ENV : string;
  SERVICE_PORT : option string;
  CACHE_SIZE : string;
  endpointOk : bool;
  samplerOk : bool;
  tracerOk : bool;
  GetRoutes : list Route;
  random : nat -> string;
  time : nat -> Z
}.

Definition port (env : Env) : string := default "8080" (SERVICE_PORT env).

(** The capacity computed from CACHE_SIZE; the error of [ParseInt] is
    discarded. *)
Definition cacheSize (env : Env) : Z :=
  if negb (String.eqb (CACHE_SIZE env) "")
  then int_of_int64 (strconv.ParseInt (CACHE_SIZE env)).1
  else 100.

(** The lines logged while starting, newest first. *)
Definition startupTrace : list Event :=
  let scope := [("scope", "service")] in
  [ LogLine "info" "Starting up the broker service" scope [];
    LogLine "info" "Binding metrics for Broker service" scope [];
    LogLine "info" "Binding routes for Broker Service" scope [];
    LogLine "info" "Initializing Zipkin Tracer" [] [];
    LogLine "info" "Binding middleware for Broker Service" scope [];
    LogLine "info" "Initializing broker service" scope [] ].

(** [main]: the counter of processed operations is registered first; a
    failing tracer constructor ends the process through [log.Fatal]; the
    error of [NewLRU] is discarded, the cache it returns is kept as it is;
    the route metrics are installed last.  The names registered by the
    client library itself (Go runtime and process collectors) differ from
    every name registered here, so the registry starts empty. *)
Definition startup (env : Env) : Result World :=
  let log : Logger := (String.eqb (ENV env) "prod", []) in
  rbind (prometheus.MustRegister ∅ "myapp_processed_ops_total") (fun reg =>
  if negb (endpointOk env) then Fatal "Error initializing Zipkin Tracer"
  else if negb (samplerOk env) then Fatal "Error initializing Zipkin Tracer"
  else if negb (tracerOk env) then Fatal "Error initializing Zipkin Tracer"
  else
    let userCache := simplelru.NewLRU (cacheSize env) in
    rbind (metric.Initialize (metric.NewMetricPublisher, reg) (GetRoutes env))
      (fun st =>
         Ok (mkWorld log userCache st.1 st.2 0 startupTrace
                     (random env) 0%nat (time env) 0%nat))).

End main.

(** * Vocabulary of the properties *)

(** A string over the class [_A-Za-z] only. *)
Definition clean (s : string) : Prop :=
  Forall (fun ch => metric.identChar ch = true) (list_ascii_of_string s).

(** The postfix [Initialize] computes for a route, and the two names it
    registers for it. *)
Definition routePostfix (route : fiber.Route) : string :=
  metric.ReplaceAllString (fiber.RouteMethod route +:+ "_" +:+ fiber.RoutePath route).

Definition routeNames (route : fiber.Route) : list string :=
  [ metric.Sprintf_s_s metric.HttpRequestCountMetricName (routePostfix route);
    metric.Sprintf_s_s metric.HttpRequestDurationMetricName (routePostfix route) ].

(** The shape of the metric map that [Initialize] builds and the publications
    keep: counters under names of the request count, histograms under names
    of the duration in milliseconds. *)
Definition WellTyped (m : gmap string prometheus.Collector) : Prop :=
  forall key col, m !! key = Some col ->
    match col with
    | prometheus.Counter _ =>
        exists x, key = metric.Sprintf_s_s metric.HttpRequestCountMetricName x
    | prometheus.Histogram _ _ =>
        exists x, key = metric.Sprintf_s_s metric.HttpRequestDurationMetricName x
    end.

(** A context for a request with the given method and path. *)
Definition ctxOf (method path : string) : fiber.Ctx :=
  fiber.AcquireCtx (fiber.mkRequest method path "" ∅).

(** Sample inputs: a router that compares method and path literally, a
    route table with the two routes of [main], an environment over it with
    counting sources of identifiers and time, and requests for /health. *)
Definition exactRoute (method path : string) (r : fiber.Request) : bool :=
  String.eqb (fiber.Method r) method && String.eqb (fiber.Path r) path.

Definition sampleRoutes : list fiber.Route :=
  [fiber.mkRoute "GET" "/metrics"; fiber.mkRoute "GET" "/health"].

Definition sampleEnv (cacheSize : string) : main.Env :=
  main.mkEnv "" None cacheSize true true true sampleRoutes
    (fun n => "uuid-" +:+ main.FormatInt (Z.of_nat n))
    (fun n => 1000000 * Z.of_nat n).

Definition healthRequest (ip : string) : fiber.Request :=
  fiber.mkRequest "GET" "/health" ip ∅.

(** Resolving a sequence of client keys one after the other, as successive
    requests do, and the keys resident in the cache, most recent first. *)
Fixpoint resolveEach (ips : list string) : main.M (list string) :=
  match ips with
  | [] => main.ret []
  | ip :: rest =>
      main.bind (main.resolveUser ip) (fun id =>
      main.bind (resolveEach rest) (fun ids => main.ret (id :: ids)))
  end.

Definition residentKeys (st : main.State) : list string :=
  match main.userCache st.1 with
  | Some cache => simplelru.Keys cache
  | None => []
  end.

(** A world with the given cache and source of identifiers, nothing else. *)
Definition worldWith (cache : option simplelru.LRU) (uuids : nat -> string) : main.World :=
  main.mkWorld (false, []) cache metric.NewMetricPublisher ∅ 0 [] uuids 0%nat
               (fun _ => 0) 0%nat.

(** Whether the route /metrics and the profiler leave a request to the rest
    of the chain, whose first stage is the limiter. *)
Definition reachesLimiter (routeMatches : string -> string -> fiber.Request -> bool)
    (r : fiber.Request) : bool :=
  negb (routeMatches "GET" "/metrics" r)
  && ((String.length (fiber.Path r) <? 12)%nat
      || negb (String.prefix "/debug/pprof" (fiber.Path r))).

(** The identifier the request-id middleware uses for a request: the one the
    request carries in its header when it is not empty, the next one of the
    generator otherwise. *)
Definition requestIdOf (r : fiber.Request) (w : main.World) : string :=
  let got := default "" (fiber.Header r !! fiber.HeaderXRequestID) in
  if String.eqb got "" then main.uuids w (main.uuidsDrawn w) else got.

(** A world in which requests are served: the cache exists and the metric
    map has the shape [Initialize] gives it. *)
Definition Healthy (w : main.World) : Prop :=
  main.userCache w <> None
  /\ WellTyped (metric.metricMap (main.metricPublisher w)).

(** What the stages leave in the locals for the stages after them: after the
    tracing middleware, after the request-id middleware, after the identity
    middleware, after the first half of the logging middleware. *)
Definition traced (c : fiber.Ctx) : Prop :=
  fiber.Locals c !! "tracer" = Some fiber.LTracer
  /\ exists span, fiber.Locals c !! "parentSpan" = Some (fiber.LSpan span)
                  /\ fiber.UserContext c = Some span.

Definition identified (c : fiber.Ctx) : Prop :=
  traced c /\ exists rid, fiber.Locals c !! "requestid" = Some (fiber.LString rid).

Definition resolved (c : fiber.Ctx) : Prop :=
  identified c /\ exists uid, fiber.Locals c !! "userId" = Some (fiber.LString uid).

Definition logged (c : fiber.Ctx) : Prop :=
  resolved c /\ exists p f, fiber.Locals c !! "logger" = Some (fiber.LLogger p f).

(** Replaying events, in the order they happened, on the stack of the spans
    that are open: a span starts as a child of the span on top of the stack,
    only the span on top can finish, a tag goes to a span that is open.  The
    result is the stack after the events, or [None] when an event breaks the
    discipline. *)
Fixpoint replaySpans (events : list main.Event) (stack : list string)
  : option (list string) :=
  match events with
  | [] => Some stack
  | main.SpanStart name parent :: rest =>
      if decide (parent = head stack) then replaySpans rest (name :: stack) else None
  | main.SpanFinish name :: rest =>
      match stack with
      | top :: below => if String.eqb top name then replaySpans rest below else None
      | [] => None
      end
  | main.SpanTag span _ _ :: rest =>
      if existsb (String.eqb span) stack then replaySpans rest stack else None
  | main.LogLine _ _ _ _ :: rest => replaySpans rest stack
  end.

(** Events (newest first, as the trace keeps them) that are well nested under
    the span [parent]: replayed on any stack with [parent] on top, they leave
    the stack as it was. *)
Definition nestedFrom (parent : option string) (events : list main.Event) : Prop :=
  forall stack, head stack = parent -> replaySpans (rev events) stack = Some stack.

(** The events between two states are well nested under the span of the
    context, which stays the same. *)
Definition spans (st st' : main.State) : Prop :=
  fiber.UserContext st'.2 = fiber.UserContext st.2
  /\ exists events,
       main.trace st'.1 = (events ++ main.trace st.1)%list
       /\ nestedFrom (fiber.UserContext st.2) events.

(** A continuation of the chain that returns from every state satisfying
    [P], in a state related to the first by [Q]. *)
Definition RunsTo (P : main.State -> Prop) (Q : main.State -> main.State -> Prop)
    (m : main.M main.Err) : Prop :=
  forall st, P st -> exists e st', m st = Ok (e, st') /\ Q st st'.

(** Nothing happened between two states but events and readings of the clock:
    the cache, the metrics, the counter of operations, the source of
    identifiers, the request and the request id of the response are the same. *)
Definition quiet (st st' : main.State) : Prop :=
  main.userCache st'.1 = main.userCache st.1
  /\ main.metricPublisher st'.1 = main.metricPublisher st.1
  /\ main.opsProcessed st'.1 = main.opsProcessed st.1
  /\ fiber.Req st'.2 = fiber.Req st.2
  /\ fiber.RespHeader st'.2 !! fiber.HeaderXRequestID
     = fiber.RespHeader st.2 !! fiber.HeaderXRequestID
  /\ spans st st'.

(** What the end of the chain does to the response: the handler of /health
    answers when the router selects it, nothing is written otherwise. *)
Definition answered (routeMatches : string -> string -> fiber.Request -> bool)
    (st st' : main.State) : Prop :=
  if routeMatches "GET" "/health" (fiber.Req st.2)
  then fiber.StatusCode st'.2 = 200
       /\ exists now, fiber.RespBody st'.2 = fiber.JSON (model.HealthCheckResponse now "OK")
  else fiber.StatusCode st'.2 = fiber.StatusCode st.2
       /\ fiber.RespBody st'.2 = fiber.RespBody st.2.

(** The metrics after the publications of one request: its counter and its
    millisecond histogram were published to, in this order, with some
    duration. *)
Definition published (r : fiber.Request) (mc mc' : metric.MetricPublisher) : Prop :=
  exists millis mc1,
    metric.PublishCounter mc metric.HttpRequestCountMetricName (fiber.AcquireCtx r) = Ok mc1
    /\ metric.PublishHistogram mc1 metric.HttpRequestDurationMetricName
         (fiber.AcquireCtx r) millis = Ok mc'.

(** What the logging middleware and the stages after it do. *)
Definition logs (routeMatches : string -> string -> fiber.Request -> bool)
    (st st' : main.State) : Prop :=
  main.userCache st'.1 = main.userCache st.1
  /\ main.opsProcessed st'.1 = main.opsProcessed st.1 + 1
  /\ published (fiber.Req st.2) (main.metricPublisher st.1) (main.metricPublisher st'.1)
  /\ WellTyped (metric.metricMap (main.metricPublisher st'.1))
  /\ fiber.Req st'.2 = fiber.Req st.2
  /\ fiber.RespHeader st'.2 !! fiber.HeaderXRequestID
     = fiber.RespHeader st.2 !! fiber.HeaderXRequestID
  /\ answered routeMatches st st'
  /\ spans st st'.

(** What the identity middleware and the stages after it do. *)
Definition serves_identified (routeMatches : string -> string -> fiber.Request -> bool)
    (st st' : main.State) : Prop :=
  main.userCache st'.1 <> None
  /\ main.opsProcessed st'.1 = main.opsProcessed st.1 + 1
  /\ published (fiber.Req st.2) (main.metricPublisher st.1) (main.metricPublisher st'.1)
  /\ WellTyped (metric.metricMap (main.metricPublisher st'.1))
  /\ fiber.Req st'.2 = fiber.Req st.2
  /\ fiber.RespHeader st'.2 !! fiber.HeaderXRequestID
     = fiber.RespHeader st.2 !! fiber.HeaderXRequestID
  /\ answered routeMatches st st'
  /\ spans st st'.

(** A healthy world for the sample route table: an empty cache of capacity 2,
    the counter and the histogram of GET /health, no event yet. *)
Definition sampleWorld : main.World :=
  main.mkWorld (false, []) (simplelru.NewLRU 2)
    (metric.mkMetricPublisher
       (<[metric.Sprintf_s_s metric.HttpRequestDurationMetricName "GET_health"
            := prometheus.Histogram metric.latencyBuckets []]>
          (<[metric.Sprintf_s_s metric.HttpRequestCountMetricName "GET_health"
               := prometheus.Counter 0]> ∅)))
    ∅ 0 []
    (fun n => "uuid-" +:+ main.FormatInt (Z.of_nat n)) 0%nat
    (fun n => 1000000 * Z.of_nat n) 0%nat.

(** The environment with another value of CACHE_SIZE. *)
Definition withCacheSize (s : string) (env : main.Env) : main.Env :=
  main.mkEnv (main.ENV env) (main.SERVICE_PORT env) s
    (main.endpointOk env) (main.samplerOk env) (main.tracerOk env)
    (main.GetRoutes env) (main.random env) (main.time env).

(** Serving requests one after the other, each with the decision of the
    limiter for it; the responses come in the order of the requests. *)
Fixpoint serveAll (routeMatches : string -> string -> fiber.Request -> bool)
    (requests : list (main.Admission * fiber.Request)) (w : main.World)
  : Result (list fiber.Response * main.World) :=
  match requests with
  | [] => Ok ([], w)
  | (decision, r) :: rest =>
      rbind (main.serve routeMatches decision r w) (fun res =>
      rbind (serveAll routeMatches rest res.2) (fun res' =>
      Ok (res.1 :: res'.1, res'.2)))
  end.

(** The number of requests of a sequence that get to the logging middleware:
    those that reach the limiter and are admitted by it. *)
Definition acceptedCount (routeMatches : string -> string -> fiber.Request -> bool)
    (requests : list (main.Admission * fiber.Request)) : Z :=
  Z.of_nat (length (List.filter
    (fun dr => match dr.1 with
               | main.Accept _ _ => reachesLimiter routeMatches dr.2
               | main.Reject _ => false
               end) requests)).

(** Publishing to the counter of a request [n] times, and observing a list
    of durations for it, first to last. *)
Fixpoint publishCounterTimes (n : nat) (mc : metric.MetricPublisher) (prefix : string)
    (c : fiber.Ctx) : Result metric.MetricPublisher :=
  match n with
  | O => Ok mc
  | S n' => rbind (metric.PublishCounter mc prefix c) (fun mc' =>
            publishCounterTimes n' mc' prefix c)
  end.

Fixpoint observeAll (values : list Z) (mc : metric.MetricPublisher) (prefix : string)
    (c : fiber.Ctx) : Result metric.MetricPublisher :=
  match values with
  | [] => Ok mc
  | v :: rest => rbind (metric.GetHistogram mc prefix c v) (fun mc' =>
                 observeAll rest mc' prefix c)
  end.

(** A cache as [NewLRU] creates it and [Get] and [Add] keep it: a positive
    capacity, no more entries than the capacity, no key twice. *)
Definition WellFormed (cache : simplelru.LRU) : Prop :=
  0 < simplelru.size cache
  /\ simplelru.Len cache <= simplelru.size cache
  /\ List.NoDup (simplelru.Keys cache).

(** ** The identity middleware, call by call *)

(** The block of the identity middleware that reads and fills the cache
    (main.go, lines 151 to 155) is a sequence of calls: [Contains], then
    [Get], or else [uuid.New] and [Add].  The block holds no lock and the
    cache is the unsynchronised one of the library, while the server runs
    the handlers of different connections at the same time: the calls of
    two requests can alternate.  [Resolving] is the place of one request in
    the block: before one of the calls, with what it has read so far, or
    past the block with its [userId]. *)
Inductive Resolving : Type :=
| AtContains (ip : string)
| AtGet (ip : string)
| AtNew (ip : string)
| AtAdd (ip userId : string)
| Resolved (userId : string).

(** The next call of a request, on the world all requests share; each call
    is one step.  [Get] on a key that is gone leaves [userId] empty, the
    second result being discarded; a nil cache panics as in [resolveUser]. *)
Definition stepResolve (r : Resolving) (w : main.World)
  : Result (Resolving * main.World) :=
  match r with
  | AtContains ip =>
      match main.userCache w with
      | None => Panic "invalid memory address or nil pointer dereference"
      | Some cache =>
          Ok (if simplelru.Contains cache ip then AtGet ip else AtNew ip, w)
      end
  | AtGet ip =>
      match main.userCache w with
      | None => Panic "invalid memory address or nil pointer dereference"
      | Some cache =>
          let got := simplelru.Get cache ip in
          Ok (Resolved (default "" got.1), main.setUserCache got.2 w)
      end
  | AtNew ip =>
      Ok (AtAdd ip (main.uuids w (main.uuidsDrawn w)), main.drawUUID w)
  | AtAdd ip userId =>
      match main.userCache w with
      | None => Panic "invalid memory address or nil pointer dereference"
      | Some cache =>
          Ok (Resolved userId, main.setUserCache (simplelru.Add cache ip userId).2 w)
      end
  | Resolved userId => Ok (r, w)
  end.


(** Which of two requests makes the next call, and the run of two requests
    under a schedule of turns. *)
Inductive Turn : Type := First | Second.

Fixpoint interleave (schedule : list Turn) (a b : Resolving) (w : main.World)
  : Result (Resolving * Resolving * main.World) :=
  match schedule with
  | [] => Ok (a, b, w)
  | First :: rest =>
      rbind (stepResolve a w) (fun r => interleave rest r.1 b r.2)
  | Second :: rest =>
      rbind (stepResolve b w) (fun r => interleave rest a r.1 r.2)
  end.






(** * Properties *)

(** ** The metric names *)

Section MetricNames.

Import prometheus metric.

Lemma ReplaceAllString_clean (s : string) : clean (ReplaceAllString s).
Proof.
  unfold clean. induction s as [|ch s IH]; simpl.
  - constructor.
  - destruct (identChar ch) eqn:E; simpl; [constructor|]; assumption.
Qed.

Lemma ReplaceAllString_fixes_clean (s : string) :
  clean s -> ReplaceAllString s = s.
Proof.
  unfold clean. induction s as [|ch s IH]; simpl; intros H; [reflexivity|].
  inversion H as [|? ? Hch Hs]; subst. rewrite Hch, IH; auto.
Qed.

Lemma ReplaceAllString_idempotent (s : string) :
  ReplaceAllString (ReplaceAllString s) = ReplaceAllString s.
Proof. apply ReplaceAllString_fixes_clean, ReplaceAllString_clean. Qed.

Lemma ReplaceAllString_app (s t : string) :
  ReplaceAllString (s +:+ t) = ReplaceAllString s +:+ ReplaceAllString t.
Proof.
  induction s as [|ch s IH]; simpl; [reflexivity|].
  destruct (identChar ch); simpl; rewrite IH; reflexivity.
Qed.

Lemma clean_app (s t : string) : clean s -> clean t -> clean (s +:+ t).
Proof.
  unfold clean. induction s as [|ch s IH]; simpl; intros Hs Ht; [assumption|].
  inversion Hs; subst. constructor; auto.
Qed.

Lemma ReplaceAllString_drops (ch : ascii) (s : string) :
  identChar ch = false -> ReplaceAllString (String ch s) = ReplaceAllString s.
Proof. intros H. simpl. rewrite H. reflexivity. Qed.

End MetricNames.

(** ** The metric registry *)

Section Registry.

Import prometheus metric.

Lemma count_name_not_duration (x y : string) :
  Sprintf_s_s HttpRequestCountMetricName x <> Sprintf_s_s HttpRequestDurationMetricName y.
Proof. unfold Sprintf_s_s. intros H. discriminate H. Qed.

Lemma micro_name_not_count (x y : string) :
  Sprintf_s_s HttpRequestDurationMicroMetricName x <> Sprintf_s_s HttpRequestCountMetricName y.
Proof. unfold Sprintf_s_s. intros H. discriminate H. Qed.

Lemma micro_name_not_duration (x y : string) :
  Sprintf_s_s HttpRequestDurationMicroMetricName x
  <> Sprintf_s_s HttpRequestDurationMetricName y.
Proof. unfold Sprintf_s_s. intros H. discriminate H. Qed.

Lemma Sprintf_s_s_inj (p x y : string) : Sprintf_s_s p x = Sprintf_s_s p y -> x = y.
Proof.
  unfold Sprintf_s_s. induction p as [|ch p IH]; intros H.
  - injection H as H. exact H.
  - injection H as H. auto.
Qed.

Lemma WellTyped_empty : WellTyped ∅.
Proof. intros key col H. rewrite lookup_empty in H. discriminate. Qed.

Lemma WellTyped_insert_counter (m : gmap string Collector) (x : string) (n : Z) :
  WellTyped m -> WellTyped (<[Sprintf_s_s HttpRequestCountMetricName x := Counter n]> m).
Proof.
  intros Hm key col H. destruct (decide (Sprintf_s_s HttpRequestCountMetricName x = key)) as [<-|Hne].
  - rewrite lookup_insert_eq in H. injection H as <-. simpl. eauto.
  - rewrite lookup_insert_ne in H by assumption. exact (Hm _ _ H).
Qed.

Lemma WellTyped_insert_histogram (m : gmap string Collector) (x : string) (bs obs : list Z) :
  WellTyped m ->
  WellTyped (<[Sprintf_s_s HttpRequestDurationMetricName x := Histogram bs obs]> m).
Proof.
  intros Hm key col H.
  destruct (decide (Sprintf_s_s HttpRequestDurationMetricName x = key)) as [<-|Hne].
  - rewrite lookup_insert_eq in H. injection H as <-. simpl. eauto.
  - rewrite lookup_insert_ne in H by assumption. exact (Hm _ _ H).
Qed.

(** Under a count name a well-typed map holds a counter or nothing. *)
Lemma WellTyped_count (m : gmap string Collector) (x : string) :
  WellTyped m ->
  m !! Sprintf_s_s HttpRequestCountMetricName x = None
  \/ exists n, m !! Sprintf_s_s HttpRequestCountMetricName x = Some (Counter n).
Proof.
  intros Hm. destruct (m !! _) as [[n|bs obs]|] eqn:E; eauto.
  apply Hm in E as [y Hy]. exfalso. exact (count_name_not_duration _ _ Hy).
Qed.

Lemma WellTyped_duration (m : gmap string Collector) (x : string) :
  WellTyped m ->
  m !! Sprintf_s_s HttpRequestDurationMetricName x = None
  \/ exists bs obs, m !! Sprintf_s_s HttpRequestDurationMetricName x = Some (Histogram bs obs).
Proof.
  intros Hm. destruct (m !! _) as [[n|bs obs]|] eqn:E; eauto.
  apply Hm in E as [y Hy]. exfalso. symmetry in Hy. exact (count_name_not_duration _ _ Hy).
Qed.

(** No name of the microsecond histogram is ever in a well-typed map. *)
Lemma WellTyped_micro (m : gmap string Collector) (x : string) :
  WellTyped m -> m !! Sprintf_s_s HttpRequestDurationMicroMetricName x = None.
Proof.
  intros Hm. destruct (m !! _) as [[n|bs obs]|] eqn:E; [| |reflexivity];
    apply Hm in E as [y Hy]; exfalso.
  - exact (micro_name_not_count _ _ Hy).
  - exact (micro_name_not_duration _ _ Hy).
Qed.

Lemma installRoute_inv st route st' :
  installRoute st route = Ok st' ->
  metricMap st'.1 =
    <[Sprintf_s_s HttpRequestDurationMetricName (routePostfix route) := Histogram latencyBuckets []]>
      (<[Sprintf_s_s HttpRequestCountMetricName (routePostfix route) := Counter 0]>
         (metricMap st.1))
  /\ st'.2 = list_to_set (routeNames route) ∪ st.2.
Proof.
  unfold installRoute, InsertCounter, InsertHistogram, MustRegister, routeNames.
  fold (routePostfix route). simpl.
  repeat (case_decide; simpl; try done).
  intros [= <-]. simpl. split; [reflexivity|]. set_solver.
Qed.

Lemma Initialize_dom routes : forall st st',
  Initialize st routes = Ok st' ->
  dom (metricMap st'.1) = dom (metricMap st.1) ∪ list_to_set (flat_map routeNames routes).
Proof.
  induction routes as [|route rest IH]; simpl; intros st st' H.
  - injection H as <-. set_solver.
  - destruct (installRoute st route) as [st1| |] eqn:E; simpl in H; try done.
    apply IH in H. apply installRoute_inv in E as [Em _].
    rewrite H, Em, !dom_insert_L. unfold routeNames. set_solver.
Qed.

Lemma Initialize_WellTyped routes : forall st st',
  WellTyped (metricMap st.1) -> Initialize st routes = Ok st' -> WellTyped (metricMap st'.1).
Proof.
  induction routes as [|route rest IH]; simpl; intros st st' Hw H.
  - injection H as <-. assumption.
  - destruct (installRoute st route) as [st1| |] eqn:E; simpl in H; try done.
    apply (IH st1); [|assumption]. apply installRoute_inv in E as [-> _].
    apply WellTyped_insert_histogram, WellTyped_insert_counter, Hw.
Qed.

Lemma PublishCounter_inv mc prefix c mc' :
  PublishCounter mc prefix c = Ok mc' ->
  dom (metricMap mc') = dom (metricMap mc)
  /\ (WellTyped (metricMap mc) -> WellTyped (metricMap mc')).
Proof.
  unfold PublishCounter.
  destruct (metricMap mc !! _) as [[n|bs obs]|] eqn:E; intros H; try done;
    injection H as <-; simpl; [|tauto].
  split.
  - rewrite dom_insert_L. apply elem_of_dom_2 in E. set_solver.
  - intros Hw key col Hk. destruct (decide (Sprintf_s_s prefix (GetMetricName c) = key)) as [<-|Hne].
    + rewrite lookup_insert_eq in Hk. injection Hk as <-. exact (Hw _ _ E).
    + rewrite lookup_insert_ne in Hk by assumption. exact (Hw _ _ Hk).
Qed.

Lemma GetHistogram_inv mc prefix c v mc' :
  GetHistogram mc prefix c v = Ok mc' ->
  dom (metricMap mc') = dom (metricMap mc)
  /\ (WellTyped (metricMap mc) -> WellTyped (metricMap mc')).
Proof.
  unfold GetHistogram.
  destruct (metricMap mc !! _) as [[n|bs obs]|] eqn:E; intros H; try done;
    injection H as <-; simpl; [|tauto].
  split.
  - rewrite dom_insert_L. apply elem_of_dom_2 in E. set_solver.
  - intros Hw key col Hk. destruct (decide (Sprintf_s_s prefix (GetMetricName c) = key)) as [<-|Hne].
    + rewrite lookup_insert_eq in Hk. injection Hk as <-. exact (Hw _ _ E).
    + rewrite lookup_insert_ne in Hk by assumption. exact (Hw _ _ Hk).
Qed.

End Registry.

Section RegistryClaims.

Import prometheus metric.

(** C9.  The metric key derived from a request is over the class [_A-Za-z]
    only, and normalising it again returns it unchanged; so is the full
    name under each of the three prefixes.  For GET and /health the key is
    GET_health. *)
Theorem metric_key_normalization (c : fiber.Ctx) :
  clean (GetMetricName c)
  /\ ReplaceAllString (GetMetricName c) = GetMetricName c
  /\ (let name := Sprintf_s_s HttpRequestCountMetricName (GetMetricName c) in
      clean name /\ ReplaceAllString name = name)
  /\ (let name := Sprintf_s_s HttpRequestDurationMetricName (GetMetricName c) in
      clean name /\ ReplaceAllString name = name)
  /\ (let name := Sprintf_s_s HttpRequestDurationMicroMetricName (GetMetricName c) in
      clean name /\ ReplaceAllString name = name)
  /\ GetMetricName (ctxOf "GET" "/health") = "GET_health"
  /\ ReplaceAllString "GET_health" = "GET_health".
Proof.
  assert (Hc : clean (GetMetricName c)) by apply ReplaceAllString_clean.
  assert (Hp : forall p, clean p -> clean (Sprintf_s_s p (GetMetricName c))).
  { intros p Hp. unfold Sprintf_s_s. apply clean_app; [assumption|].
    apply (clean_app "_"); [|assumption]. repeat constructor. }
  split; [assumption|]. split; [apply ReplaceAllString_idempotent|].
  repeat split; try reflexivity;
    try (apply ReplaceAllString_fixes_clean); apply Hp;
    unfold clean; simpl; repeat constructor.
Qed.

(** C10.  Normalisation keeps exactly the characters of the class, so digits
    and the slash disappear; GET /v1 and GET /v2 are distinct route
    signatures with one key, and with only GET /v1 in the route table a
    publication for a request GET /v2 increments the counter registered for
    GET /v1. *)
Theorem metric_key_not_injective :
  (forall s, list_ascii_of_string (ReplaceAllString s)
             = List.filter identChar (list_ascii_of_string s))
  /\ Forall (fun ch => identChar ch = false) (list_ascii_of_string "0123456789/")
  /\ (let c1 := ctxOf "GET" "/v1" in
      let c2 := ctxOf "GET" "/v2" in
      let name1 := Sprintf_s_s HttpRequestCountMetricName
                     (routePostfix (fiber.mkRoute "GET" "/v1")) in
      fiber.Path (fiber.Req c1) <> fiber.Path (fiber.Req c2)
      /\ GetMetricName c1 = GetMetricName c2
      /\ exists mc reg mc',
           Initialize (NewMetricPublisher, ∅) [fiber.mkRoute "GET" "/v1"] = Ok (mc, reg)
           /\ metricMap mc !! name1 = Some (Counter 0)
           /\ PublishCounter mc HttpRequestCountMetricName c2 = Ok mc'
           /\ metricMap mc' !! name1 = Some (Counter 1)).
Proof.
  split; [|split].
  - induction s as [|ch s IH]; simpl; [reflexivity|].
    destruct (identChar ch); simpl; congruence.
  - simpl. repeat constructor.
  - simpl. split; [discriminate|]. split; [reflexivity|].
    eexists _, _, _. split; [vm_compute; reflexivity|].
    split; [vm_compute; reflexivity|].
    split; vm_compute; reflexivity.
Qed.

(** A publication for a request increments the counter registered under the
    key of any route with the same postfix. *)
Lemma PublishCounter_shared_key mc c route n :
  GetMetricName c = routePostfix route ->
  metricMap mc !! Sprintf_s_s HttpRequestCountMetricName (routePostfix route)
    = Some (Counter n) ->
  exists mc', PublishCounter mc HttpRequestCountMetricName c = Ok mc'
    /\ metricMap mc' !! Sprintf_s_s HttpRequestCountMetricName (routePostfix route)
       = Some (Counter (n + 1)).
Proof.
  intros Hk Hm. unfold PublishCounter. rewrite Hk, Hm.
  eexists. split; [reflexivity|]. simpl. apply lookup_insert_eq.
Qed.

End RegistryClaims.

Section RegistryKeys.

Import prometheus metric.

(** [Initialize] returns when the postfixes of the routes are pairwise
    distinct and none of their names is registered yet. *)
Lemma Initialize_returns routes : forall st,
  NoDup (List.map routePostfix routes) ->
  (forall route name, In route routes -> In name (routeNames route) -> name ∉ st.2) ->
  exists st', Initialize st routes = Ok st'.
Proof.
  induction routes as [|route rest IH]; simpl; intros st Hnd Hfresh; [eauto|].
  inversion Hnd as [|? ? Hnotin Hnd']; subst.
  assert (E : exists st1, installRoute st route = Ok st1).
  { unfold installRoute, InsertCounter, InsertHistogram, MustRegister.
    fold (routePostfix route). simpl.
    rewrite decide_False by (apply (Hfresh route); simpl; auto). simpl.
    rewrite decide_False; [simpl; eauto|].
    rewrite elem_of_union, elem_of_singleton. intros [Heq|Hin].
    - symmetry in Heq. exact (count_name_not_duration _ _ Heq).
    - revert Hin. apply (Hfresh route); simpl; auto. }
  destruct E as [st1 E]. rewrite E. simpl. apply IH; [assumption|].
  intros r name Hr Hname. apply installRoute_inv in E as [_ ->].
  rewrite elem_of_union, elem_of_list_to_set. intros [Hin|Hin].
  - apply Hnotin. apply list_elem_of_In, in_map_iff. exists r. split; [|assumption].
    unfold routeNames in Hin, Hname. simpl in Hname.
    rewrite !elem_of_cons, elem_of_nil in Hin.
    destruct Hname as [<-|[<-|[]]]; destruct Hin as [Hin|[Hin|[]]].
    + apply Sprintf_s_s_inj in Hin. assumption.
    + exfalso. exact (count_name_not_duration _ _ Hin).
    + exfalso. symmetry in Hin. exact (count_name_not_duration _ _ Hin).
    + apply Sprintf_s_s_inj in Hin. assumption.
  - revert Hin. apply (Hfresh r); auto.
Qed.

(** C7.  [Initialize] on a new publisher leaves exactly the names of the
    routes of the table as keys; [PublishCounter] and [GetHistogram], the
    publications of request time, return a map with the same keys whenever
    they return, and on a key that is absent they return the publisher
    unchanged, without a panic. *)
Theorem metric_keys_fixed :
  (forall routes reg mc reg',
      Initialize (NewMetricPublisher, reg) routes = Ok (mc, reg') ->
      dom (metricMap mc) = list_to_set (flat_map routeNames routes))
  /\ (forall mc prefix c mc',
      PublishCounter mc prefix c = Ok mc' -> dom (metricMap mc') = dom (metricMap mc))
  /\ (forall mc prefix c v mc',
      GetHistogram mc prefix c v = Ok mc' -> dom (metricMap mc') = dom (metricMap mc))
  /\ (forall mc prefix c,
      metricMap mc !! Sprintf_s_s prefix (GetMetricName c) = None ->
      PublishCounter mc prefix c = Ok mc)
  /\ (forall mc prefix c v,
      metricMap mc !! Sprintf_s_s prefix (GetMetricName c) = None ->
      GetHistogram mc prefix c v = Ok mc).
Proof.
  repeat split.
  - intros routes reg mc reg' H. apply Initialize_dom in H. simpl in H.
    rewrite H, dom_empty_L. set_solver.
  - intros mc prefix c mc' H. apply PublishCounter_inv in H. tauto.
  - intros mc prefix c v mc' H. apply GetHistogram_inv in H. tauto.
  - intros mc prefix c H. unfold PublishCounter. rewrite H. reflexivity.
  - intros mc prefix c v H. unfold GetHistogram. rewrite H. reflexivity.
Qed.

Lemma metric_keys_fixed_witness :
  match Initialize (NewMetricPublisher, ∅) sampleRoutes with
  | Ok (mc, _) =>
      dom (metricMap mc) = list_to_set (flat_map routeNames sampleRoutes)
      /\ (forall mc', PublishCounter mc HttpRequestCountMetricName (ctxOf "GET" "/health")
                      = Ok mc' -> dom (metricMap mc') = dom (metricMap mc))
      /\ (forall mc', GetHistogram mc HttpRequestDurationMetricName (ctxOf "GET" "/health") 7
                      = Ok mc' -> dom (metricMap mc') = dom (metricMap mc))
      /\ PublishCounter mc HttpRequestCountMetricName (ctxOf "GET" "/nowhere") = Ok mc
      /\ GetHistogram mc HttpRequestDurationMicroMetricName (ctxOf "GET" "/health") 7 = Ok mc
  | _ => False
  end.
Proof.
  destruct metric_keys_fixed as (H1 & H2 & H3 & H4 & H5).
  pose proof (H1 sampleRoutes ∅) as H.
  destruct (Initialize (NewMetricPublisher, ∅) sampleRoutes) as [[mc reg]| |] eqn:E.
  - split; [apply (H mc reg eq_refl)|]. split; [apply H2|]. split; [apply H3|].
    vm_compute in E. injection E as <- <-.
    split; [apply H4|apply H5]; vm_compute; reflexivity.
  - vm_compute in E. discriminate E.
  - vm_compute in E. discriminate E.
Defined.

End RegistryKeys.

(** ** The identity cache *)

Section IdentityCache.

Import main.

Lemma items_key l key ent : simplelru.items l key = Some ent -> ent.1 = key.
Proof.
  induction l as [|e l IH]; simpl; [discriminate|].
  destruct (String.eqb e.1 key) eqn:E; [|assumption].
  intros [= <-]. apply String.eqb_eq, E.
Qed.

Lemma items_head key value l : simplelru.items ((key, value) :: l) key = Some (key, value).
Proof. simpl. rewrite String.eqb_refl. reflexivity. Qed.

Lemma listRemove_head key value l : simplelru.listRemove ((key, value) :: l) key = l.
Proof. simpl. rewrite String.eqb_refl. reflexivity. Qed.

(** A resident key: the stored identity is returned and its entry moves to
    the front; nothing is generated. *)
Lemma resolveUser_hit w c ip cache ent :
  userCache w = Some cache ->
  simplelru.items (simplelru.evictList cache) ip = Some ent ->
  resolveUser ip (w, c)
  = Ok (ent.2,
        (setUserCache
           (simplelru.mkLRU (simplelru.size cache)
              (simplelru.MoveToFront (simplelru.evictList cache) ent)) w, c)).
Proof.
  intros Hc Hi. unfold resolveUser, bind, getWorld, simplelru.Contains, simplelru.Get.
  simpl. rewrite Hc, Hi. reflexivity.
Qed.

(** A key that is not resident: the next identifier of the source is
    returned and stored with [Add]. *)
Lemma resolveUser_miss w c ip cache :
  userCache w = Some cache ->
  simplelru.items (simplelru.evictList cache) ip = None ->
  resolveUser ip (w, c)
  = Ok (uuids w (uuidsDrawn w),
        (setUserCache (simplelru.Add cache ip (uuids w (uuidsDrawn w))).2 (drawUUID w), c)).
Proof.
  intros Hc Hi. unfold resolveUser, bind, getWorld, simplelru.Contains.
  simpl. rewrite Hc, Hi. reflexivity.
Qed.

(** After any resolution by a cache of capacity at least one, the key is at
    the front of the list with the identity returned. *)
Lemma resolveUser_front w c ip cache :
  userCache w = Some cache -> 1 <= simplelru.size cache ->
  exists id st' cache',
    resolveUser ip (w, c) = Ok (id, st')
    /\ userCache st'.1 = Some cache'
    /\ simplelru.size cache' = simplelru.size cache
    /\ exists l, simplelru.evictList cache' = (ip, id) :: l.
Proof.
  intros Hc Hsz. destruct (simplelru.items (simplelru.evictList cache) ip) as [ent|] eqn:Hi.
  - rewrite (resolveUser_hit _ _ _ _ _ Hc Hi). eexists _, _, _. split; [reflexivity|].
    simpl. split; [reflexivity|]. split; [reflexivity|].
    unfold simplelru.MoveToFront. rewrite (items_key _ _ _ Hi).
    destruct ent as [k v]. simpl in *. apply items_key in Hi. simpl in Hi. subst k. eauto.
  - rewrite (resolveUser_miss _ _ _ _ Hc Hi). eexists _, _, _. split; [reflexivity|].
    simpl. split; [reflexivity|]. unfold simplelru.Add. rewrite Hi. simpl.
    destruct (simplelru.size cache <? _) eqn:E; simpl; [|eauto].
    split; [reflexivity|].
    destruct (simplelru.evictList cache) as [|e l]; [|eauto].
    simpl in E. apply Z.ltb_lt in E. lia.
Qed.

(** C6.  With a cache of capacity at least one, two successive resolutions
    of a key return the same identity; the second is a hit (no identifier
    is generated for it), and after it the entry of the key is at the front
    of the recency list.  More generally every hit returns the stored
    identity and moves the entry to the front, over the other entries in
    their order. *)
Theorem identity_stable_and_promoted (w : World) (c : fiber.Ctx) (ip : string)
    (cache : simplelru.LRU) :
  userCache w = Some cache ->
  1 <= simplelru.size cache ->
  (exists id st1 st2 cache2,
      resolveUser ip (w, c) = Ok (id, st1)
      /\ resolveUser ip st1 = Ok (id, st2)
      /\ uuidsDrawn st2.1 = uuidsDrawn st1.1
      /\ userCache st2.1 = Some cache2
      /\ head (simplelru.evictList cache2) = Some (ip, id))
  /\ (forall ent,
        simplelru.items (simplelru.evictList cache) ip = Some ent ->
        exists st' cache',
          resolveUser ip (w, c) = Ok (ent.2, st')
          /\ userCache st'.1 = Some cache'
          /\ simplelru.evictList cache'
             = ent :: simplelru.listRemove (simplelru.evictList cache) ip).
Proof.
  intros Hc Hsz. split.
  - destruct (resolveUser_front w c ip cache Hc Hsz)
      as (id & [w1 c1] & cache1 & Hr1 & Hc1 & Hsz1 & l & Hl).
    simpl in Hc1.
    assert (Hi : simplelru.items (simplelru.evictList cache1) ip = Some (ip, id))
      by (rewrite Hl; apply items_head).
    exists id, (w1, c1). eexists _, _. split; [exact Hr1|].
    split; [exact (resolveUser_hit _ _ _ _ _ Hc1 Hi)|].
    simpl. repeat split; reflexivity.
  - intros ent Hi. eexists _, _. split; [exact (resolveUser_hit _ _ _ _ _ Hc Hi)|].
    simpl. split; [reflexivity|]. unfold simplelru.MoveToFront.
    rewrite (items_key _ _ _ Hi). reflexivity.
Qed.

Lemma identity_stable_and_promoted_witness :
  let w := worldWith (simplelru.NewLRU 1) (fun n => "id" +:+ FormatInt (Z.of_nat n)) in
  1 <= 1
  /\ exists st1 st2 cache2,
       resolveUser "10.0.0.1" (w, ctxOf "GET" "/health") = Ok ("id0", st1)
       /\ resolveUser "10.0.0.1" st1 = Ok ("id0", st2)
       /\ userCache st2.1 = Some cache2
       /\ head (simplelru.evictList cache2) = Some ("10.0.0.1", "id0").
Proof.
  intros w. split; [lia|].
  destruct (identity_stable_and_promoted w (ctxOf "GET" "/health") "10.0.0.1"
              (simplelru.mkLRU 1 []) eq_refl ltac:(simpl; lia))
    as [(id & st1 & st2 & cache2 & H1 & H2 & _ & H3 & H4) _].
  assert (E : id = "id0").
  { vm_compute in H1. injection H1 as <- _. reflexivity. }
  subst id. exists st1, st2, cache2. auto.
Defined.

Local Arguments resolveUser : simpl never.
Local Arguments resolveEach : simpl never.

Lemma eqb_ne (a b : string) : a <> b -> String.eqb a b = false.
Proof. apply String.eqb_neq. Qed.

Lemma resolveEach_cons ip rest st :
  resolveEach (ip :: rest) st
  = rbind (resolveUser ip st) (fun r =>
    rbind (resolveEach rest r.2) (fun r' => Ok (r.1 :: r'.1, r'.2))).
Proof. reflexivity. Qed.

Lemma resolveEach_nil st : resolveEach [] st = Ok ([], st).
Proof. reflexivity. Qed.

(** The comparisons of keys that are known, as rewriting rules. *)
Ltac keys_eval :=
  repeat (progress (simpl; rewrite ?String.eqb_refl;
                    repeat match goal with
                           | E : String.eqb _ _ = _ |- _ => rewrite E
                           end)).

Ltac lru_miss :=
  rewrite ?resolveEach_cons; erewrite resolveUser_miss;
  [ | simpl; reflexivity | keys_eval; reflexivity ];
  unfold simplelru.Add; keys_eval.

Ltac lru_hit :=
  rewrite ?resolveEach_cons; erewrite resolveUser_hit;
  [ | simpl; reflexivity | keys_eval; reflexivity ];
  unfold simplelru.MoveToFront; keys_eval.

Ltac lru_step := first [lru_hit | lru_miss].

(** The cases of a key of the cache against the keys [A], [B], [C]: it is
    one of them, or none. *)
Ltac key_cases k A B C :=
  destruct (String.eqb_spec k A) as [?|?];
  [ subst k
  | destruct (String.eqb_spec k B) as [?|?];
    [ subst k
    | destruct (String.eqb_spec k C) as [?|?]; [ subst k | ] ] ];
  repeat match goal with
         | N : k <> _ |- _ => apply eqb_ne in N
         end.

(** C5.  With a cache of capacity 2 and distinct keys A, B, C: resolving A,
    then B, then C evicts A and leaves C and B resident.  In the state
    reached, a resolve of A is a miss: it returns the next identifier of the
    source, a fresh identity different from A's original one; B and C still
    resolve to their original identities, each of them and one after the
    other.  The cache at the start is any cache of capacity 2 the service
    can hold (at most two entries, no key twice); fresh means that the
    source of identifiers never repeats itself and that the identities
    already in the cache were drawn from it. *)
Theorem lru_eviction_capacity_two (w : World) (c : fiber.Ctx) (cache : simplelru.LRU)
    (A B C : string) :
  A <> B -> A <> C -> B <> C ->
  userCache w = Some cache ->
  WellFormed cache ->
  simplelru.size cache = 2 ->
  (forall i j, uuids w i = uuids w j -> i = j) ->
  (forall key value, In (key, value) (simplelru.evictList cache) ->
     exists i, (i < uuidsDrawn w)%nat /\ value = uuids w i) ->
  exists a b c0 st3,
    resolveEach [A; B; C] (w, c) = Ok ([a; b; c0], st3)
    /\ residentKeys st3 = [C; B]
    /\ (exists a' st,
          resolveUser A st3 = Ok (a', st)
          /\ a' = uuids w (uuidsDrawn st3.1)
          /\ a' <> a)
    /\ (exists st, resolveUser B st3 = Ok (b, st))
    /\ (exists st, resolveUser C st3 = Ok (c0, st))
    /\ (exists st, resolveEach [B; C] st3 = Ok ([b; c0], st)).
Proof.
  intros HAB HAC HBC Hc (Hpos & Hlen & Hnd) Hsz Hinj Hold.
  destruct w. simpl in Hc, Hinj, Hold. subst.
  destruct cache as [sz l]. unfold simplelru.Len, simplelru.Keys in *.
  simpl in Hsz, Hlen, Hnd, Hold. subst sz.
  pose proof (eqb_ne _ _ HAB) as E1. pose proof (eqb_ne _ _ HAC) as E2.
  pose proof (eqb_ne _ _ HBC) as E3.
  assert (E4 : String.eqb B A = false) by (apply eqb_ne; congruence).
  assert (E5 : String.eqb C A = false) by (apply eqb_ne; congruence).
  assert (E6 : String.eqb C B = false) by (apply eqb_ne; congruence).
  destruct l as [|[k1 v1] [|[k2 v2] [|e3 l]]]; [ | | | simpl length in Hlen; lia ].
  - eexists _, _, _, _. split.
    { lru_step. lru_step. lru_step. rewrite ?resolveEach_nil. reflexivity. }
    split; [reflexivity|]. split.
    { eexists _, _. split; [lru_step; reflexivity|]. split; [reflexivity|].
      simpl. intros Heq. apply Hinj in Heq. lia. }
    split; [eexists; lru_step; reflexivity|].
    split; [eexists; lru_step; reflexivity|].
    eexists. lru_step. lru_step. rewrite ?resolveEach_nil. reflexivity.
  - destruct (Hold k1 v1 (or_introl eq_refl)) as (i1 & Hi1 & ->).
    key_cases k1 A B C;
      (eexists _, _, _, _; split;
       [ lru_step; lru_step; lru_step; rewrite ?resolveEach_nil; reflexivity |];
       split; [reflexivity|]; split;
       [ eexists _, _; split; [lru_step; reflexivity|]; split; [reflexivity|];
         simpl; intros Heq; apply Hinj in Heq; lia
       | split; [eexists; lru_step; reflexivity|];
         split; [eexists; lru_step; reflexivity|];
         eexists; lru_step; lru_step; rewrite ?resolveEach_nil; reflexivity ]).
  - destruct (Hold k1 v1 (or_introl eq_refl)) as (i1 & Hi1 & ->).
    destruct (Hold k2 v2 (or_intror (or_introl eq_refl))) as (i2 & Hi2 & ->).
    assert (N12 : String.eqb k1 k2 = false).
    { apply eqb_ne. intros ->. inversion Hnd as [|? ? Hin _]. apply Hin. left. reflexivity. }
    assert (N21 : String.eqb k2 k1 = false) by (rewrite String.eqb_sym; exact N12).
    key_cases k1 A B C; key_cases k2 A B C;
      try (rewrite String.eqb_refl in N12; discriminate N12);
      (eexists _, _, _, _; split;
       [ lru_step; lru_step; lru_step; rewrite ?resolveEach_nil; reflexivity |];
       split; [reflexivity|]; split;
       [ eexists _, _; split; [lru_step; reflexivity|]; split; [reflexivity|];
         simpl; intros Heq; apply Hinj in Heq; lia
       | split; [eexists; lru_step; reflexivity|];
         split; [eexists; lru_step; reflexivity|];
         eexists; lru_step; lru_step; rewrite ?resolveEach_nil; reflexivity ]).
Qed.

(** The decimal rendering of an integer determines it, so a source that
    numbers its identifiers never repeats itself. *)
Lemma FormatInt_inj (a b : Z) : FormatInt a = FormatInt b -> a = b.
Proof.
  unfold FormatInt. intros H.
  assert (Hnn : forall z, Z.to_int z <> Decimal.Pos Decimal.Nil
                          /\ Z.to_int z <> Decimal.Neg Decimal.Nil).
  { intros [|p|p]; simpl; split; try discriminate;
      intros [= E]; exact (DecimalPos.Unsigned.to_uint_nonnil p E). }
  apply (f_equal DecimalString.NilZero.int_of_string) in H.
  rewrite !DecimalString.NilZero.isi in H by apply Hnn.
  injection H as H. apply (f_equal Z.of_int) in H.
  rewrite !DecimalZ.of_to in H. exact H.
Qed.

Lemma numbered_ids_inj (prefix : string) (i j : nat) :
  prefix +:+ FormatInt (Z.of_nat i) = prefix +:+ FormatInt (Z.of_nat j) -> i = j.
Proof.
  induction prefix as [|ch prefix IH]; simpl.
  - intros H. apply FormatInt_inj in H. lia.
  - intros [= H]. exact (IH H).
Qed.

Lemma lru_eviction_capacity_two_witness :
  let w := worldWith (simplelru.NewLRU 2) (fun n => "id" +:+ FormatInt (Z.of_nat n)) in
  ("a" <> "b" /\ "a" <> "c" /\ "b" <> "c")
  /\ WellFormed (simplelru.mkLRU 2 [])
  /\ exists st3,
       resolveEach ["a"; "b"; "c"] (w, ctxOf "GET" "/health")
       = Ok (["id0"; "id1"; "id2"], st3)
       /\ residentKeys st3 = ["c"; "b"]
       /\ (exists st, resolveUser "a" st3 = Ok ("id3", st))
       /\ "id3" <> "id0"
       /\ (exists st, resolveUser "b" st3 = Ok ("id1", st))
       /\ (exists st, resolveUser "c" st3 = Ok ("id2", st)).
Proof.
  intros w.
  assert (Hwf : WellFormed (simplelru.mkLRU 2 [])).
  { unfold WellFormed, simplelru.Len, simplelru.Keys. simpl.
    split; [lia|]. split; [lia|]. constructor. }
  split; [repeat split; discriminate|]. split; [exact Hwf|].
  destruct (lru_eviction_capacity_two w (ctxOf "GET" "/health") (simplelru.mkLRU 2 [])
              "a" "b" "c"
              ltac:(discriminate) ltac:(discriminate) ltac:(discriminate)
              eq_refl Hwf eq_refl
              (fun i j => numbered_ids_inj "id" i j)
              (fun key value (H : In (key, value) []) => match H with end))
    as (a & b & c0 & st3 & H1 & H2 & (a' & st4 & H3 & H4 & H5) & (st5 & H6)
        & (st6 & H7) & _).
  assert (E : a = "id0" /\ b = "id1" /\ c0 = "id2" /\ a' = "id3").
  { pose proof H1 as H. vm_compute in H. injection H as <- <- <- <-.
    subst a'. repeat split; reflexivity. }
  destruct E as (-> & -> & -> & ->).
  exists st3. split; [exact H1|]. split; [exact H2|].
  split; [exists st4; exact H3|]. split; [exact H5|].
  split; [exists st5; exact H6 | exists st6; exact H7].
Defined.

(** Resolving A again fills the place of B: in the sequence A, B, C, A, B, C
    the second resolution of B is a miss, and B gets another identity. *)
Lemma reresolving_evicts_next_oldest :
  let w := worldWith (simplelru.NewLRU 2) (fun n => "id" +:+ FormatInt (Z.of_nat n)) in
  exists st,
    resolveEach ["a"; "b"; "c"; "a"; "b"; "c"] (w, ctxOf "GET" "/health")
    = Ok (["id0"; "id1"; "id2"; "id3"; "id4"; "id5"], st).
Proof. intros w. eexists. vm_compute. reflexivity. Qed.

End IdentityCache.

(** ** The middleware chain *)

Section Chain.

Import main fiber.

Variable routeMatches : string -> string -> Request -> bool.

(** Symbolic execution of request-time code: the combinators of the monad
    and the collaborators are unfolded, maps and strings are left alone. *)
Ltac go_run :=
  cbv beta iota zeta delta
    [bind ret rbind panic lift getCtx getWorld modifyCtx modifyWorld
     emit time_Now time_Since uuid_New StartSpanFromContext Finish Tag Info Debug
     fst snd].

(** Projections of updated worlds and contexts. *)
Ltac go_proj :=
  cbn [log userCache metricPublisher registry opsProcessed trace uuids uuidsDrawn
       clock clockReads
       emitEvent setUserCache setMetricPublisher incOpsProcessed drawUUID readClock
       Req Locals UserContext StatusCode RespBody RespHeader
       ctx.SetLocal ctx.SetUserContext ctx.SetHeader ctx.Status ctx.SetBody ctx.JSON
       ctx.SendStatus AcquireCtx response
       respStatus respBody respHeader fst snd].

Ltac go_proj_all :=
  cbn [log userCache metricPublisher registry opsProcessed trace uuids uuidsDrawn
       clock clockReads
       emitEvent setUserCache setMetricPublisher incOpsProcessed drawUUID readClock
       Req Locals UserContext StatusCode RespBody RespHeader
       ctx.SetLocal ctx.SetUserContext ctx.SetHeader ctx.Status ctx.SetBody ctx.JSON
       ctx.SendStatus AcquireCtx response
       respStatus respBody respHeader fst snd] in *.

Ltac go_step := go_run; go_proj.

(** The response to a request that the limiter rejects, and the world
    after it. *)
Lemma serve_rejected (retryAfter : string) (r : Request) (w : World) :
  reachesLimiter routeMatches r = true ->
  serve routeMatches (Reject retryAfter) r w
  = Ok (mkResponse 200
          (JSON (model.ErrorResponse (clock w (clockReads w)) limitMessage))
          (<[HeaderContentType := MIMEApplicationJSON]>
             (<[HeaderRetryAfter := retryAfter]> ∅)),
        readClock w).
Proof.
  unfold reachesLimiter. intros H. apply andb_true_iff in H as [Hm Hp].
  apply negb_true_iff in Hm.
  unfold serve, stack, next, serves, metricsRoute, pprof_New, limiter_New, LimitReached.
  go_step. rewrite Hm. go_step. rewrite Hp. go_step. reflexivity.
Qed.

(** *** The publications *)

Lemma PublishCounter_runs mc c :
  WellTyped (metric.metricMap mc) ->
  exists mc', metric.PublishCounter mc metric.HttpRequestCountMetricName c = Ok mc'
    /\ WellTyped (metric.metricMap mc')
    /\ dom (metric.metricMap mc') = dom (metric.metricMap mc).
Proof.
  intros Hw.
  destruct (metric.PublishCounter mc metric.HttpRequestCountMetricName c) as [mc'| |] eqn:E.
  - exists mc'. apply PublishCounter_inv in E as [Hd Ht]. auto.
  - exfalso. unfold metric.PublishCounter in E.
    destruct (WellTyped_count _ (metric.GetMetricName c) Hw) as [H|[n H]];
      rewrite H in E; discriminate E.
  - exfalso. unfold metric.PublishCounter in E.
    destruct (metric.metricMap mc !! _) as [[?|? ?]|]; discriminate E.
Qed.

Lemma PublishHistogram_runs mc c v :
  WellTyped (metric.metricMap mc) ->
  exists mc', metric.PublishHistogram mc metric.HttpRequestDurationMetricName c v = Ok mc'
    /\ WellTyped (metric.metricMap mc')
    /\ dom (metric.metricMap mc') = dom (metric.metricMap mc).
Proof.
  intros Hw. unfold metric.PublishHistogram.
  destruct (metric.GetHistogram mc metric.HttpRequestDurationMetricName c v)
    as [mc'| |] eqn:E.
  - exists mc'. apply GetHistogram_inv in E as [Hd Ht]. auto.
  - exfalso. unfold metric.GetHistogram in E.
    destruct (WellTyped_duration _ (metric.GetMetricName c) Hw) as [H|(bs & obs & H)];
      rewrite H in E; discriminate E.
  - exfalso. unfold metric.GetHistogram in E.
    destruct (metric.metricMap mc !! _) as [[?|? ?]|]; discriminate E.
Qed.

(** The publication under the microsecond name finds no histogram. *)
Lemma PublishHistogram_micro_dropped mc c v :
  WellTyped (metric.metricMap mc) ->
  metric.PublishHistogram mc metric.HttpRequestDurationMicroMetricName c v = Ok mc.
Proof.
  intros Hw. unfold metric.PublishHistogram, metric.GetHistogram.
  rewrite (WellTyped_micro _ _ Hw). reflexivity.
Qed.

(** The publications read the method and the path of the request only. *)
Lemma PublishCounter_request mc prefix c c' :
  Req c = Req c' -> metric.PublishCounter mc prefix c = metric.PublishCounter mc prefix c'.
Proof. intros H. unfold metric.PublishCounter, metric.GetMetricName. rewrite H. reflexivity. Qed.

Lemma PublishHistogram_request mc prefix c c' v :
  Req c = Req c' ->
  metric.PublishHistogram mc prefix c v = metric.PublishHistogram mc prefix c' v.
Proof.
  intros H. unfold metric.PublishHistogram, metric.GetHistogram, metric.GetMetricName.
  rewrite H. reflexivity.
Qed.

Lemma publishMetrics_runs startTime w c :
  WellTyped (metric.metricMap (metricPublisher w)) ->
  exists w',
    publishMetrics startTime (w, c) = Ok (tt, (w', c))
    /\ userCache w' = userCache w
    /\ opsProcessed w' = opsProcessed w
    /\ published (Req c) (metricPublisher w) (metricPublisher w')
    /\ WellTyped (metric.metricMap (metricPublisher w'))
    /\ trace w' = trace w.
Proof.
  intros Hw. unfold publishMetrics. go_step.
  destruct (PublishCounter_runs (metricPublisher w) c Hw) as (mc1 & E1 & Hw1 & Hd1).
  rewrite E1. go_step.
  destruct (PublishHistogram_runs mc1 c
              (Milliseconds (clock w (clockReads w) - startTime)) Hw1)
    as (mc2 & E2 & Hw2 & Hd2).
  rewrite E2. go_step.
  rewrite (PublishHistogram_micro_dropped mc2 c _ Hw2). go_step.
  eexists. split; [reflexivity|]. go_proj.
  split; [reflexivity|]. split; [reflexivity|]. split; [|split; [exact Hw2|reflexivity]].
  exists (Milliseconds (clock w (clockReads w) - startTime)), mc1.
  rewrite <- (PublishCounter_request _ _ c) by reflexivity.
  rewrite <- (PublishHistogram_request _ _ c) by reflexivity. auto.
Qed.

(** *** Nesting of spans *)

Lemma replaySpans_app a b stack :
  replaySpans (a ++ b) stack
  = match replaySpans a stack with
    | Some stack' => replaySpans b stack'
    | None => None
    end.
Proof.
  revert stack. induction a as [|e a IH]; intros stack; [reflexivity|].
  destruct e; cbn [app replaySpans].
  - destruct (decide (parent = head stack)); [apply IH|reflexivity].
  - destruct stack as [|top below]; [reflexivity|].
    destruct (String.eqb top name); [apply IH|reflexivity].
  - destruct (existsb (String.eqb span) stack); [apply IH|reflexivity].
  - apply IH.
Qed.

Lemma nested_nil parent : nestedFrom parent [].
Proof. intros stack _. reflexivity. Qed.

(** [newer] happened after [older]. *)
Lemma nested_app parent newer older :
  nestedFrom parent newer -> nestedFrom parent older -> nestedFrom parent (newer ++ older).
Proof.
  intros Hn Ho stack Hs. rewrite rev_app_distr, replaySpans_app, (Ho stack Hs).
  exact (Hn stack Hs).
Qed.

Lemma nested_wrap name parent inner :
  nestedFrom (Some name) inner ->
  nestedFrom parent (SpanFinish name :: inner ++ [SpanStart name parent]).
Proof.
  intros Hi stack Hs. cbn [rev]. rewrite rev_app_distr. cbn [rev app replaySpans].
  rewrite decide_True by (symmetry; exact Hs).
  rewrite replaySpans_app, (Hi (name :: stack) eq_refl). cbn [replaySpans].
  rewrite String.eqb_refl. reflexivity.
Qed.

Lemma nested_span name parent : nestedFrom parent [SpanFinish name; SpanStart name parent].
Proof. exact (nested_wrap name parent [] (nested_nil _)). Qed.

Lemma nested_log parent level message fields values :
  nestedFrom parent [LogLine level message fields values].
Proof. intros stack _. reflexivity. Qed.

Lemma nested_tag span key value : nestedFrom (Some span) [SpanTag span key value].
Proof.
  intros [|top below] Hs; [discriminate Hs|]. injection Hs as ->.
  cbn [rev app replaySpans existsb]. rewrite String.eqb_refl. reflexivity.
Qed.

(** The trace after some events, as the events before the trace. *)
Lemma added_nil (t : list Event) : t = ([] ++ t)%list.
Proof. reflexivity. Qed.

Lemma added_cons (e : Event) events t t' :
  t' = (events ++ t)%list -> e :: t' = ((e :: events) ++ t)%list.
Proof. intros ->. reflexivity. Qed.

Lemma added_app (inner events : list Event) t t' :
  t' = (events ++ t)%list -> (inner ++ t')%list = ((inner ++ events) ++ t)%list.
Proof. intros ->. apply app_assoc. Qed.

Ltac added := repeat first [ apply added_cons | apply added_app | apply added_nil ].

Ltac nested :=
  repeat match goal with
    | |- nestedFrom _ [] => apply nested_nil
    | |- nestedFrom _ (?inner ++ ?rest) => apply nested_app; [assumption|]
    | |- nestedFrom ?u (SpanFinish ?n :: SpanStart ?n ?u :: ?rest) =>
        apply (nested_app u [SpanFinish n; SpanStart n u] rest); [apply nested_span|]
    | |- nestedFrom ?u (SpanFinish ?n :: LogLine ?a ?b ?c ?d :: SpanStart ?n ?u :: ?rest) =>
        apply (nested_app u (SpanFinish n :: [LogLine a b c d] ++ [SpanStart n u]) rest);
        [apply nested_wrap, nested_log|]
    | |- nestedFrom ?u (LogLine ?a ?b ?c ?d :: ?rest) =>
        apply (nested_app u [LogLine a b c d] rest); [apply nested_log|]
    | |- nestedFrom (Some ?s) (SpanTag ?s ?k ?v :: ?rest) =>
        apply (nested_app (Some s) [SpanTag s k v] rest); [apply nested_tag|]
    end.

Ltac replay :=
  let stack := fresh "stack" in
  let Hs := fresh "Hs" in
  intros stack Hs; cbn [rev app];
  repeat (cbn [replaySpans head];
          first [ rewrite decide_True by (first [reflexivity | symmetry; exact Hs])
                | rewrite String.eqb_refl ]);
  reflexivity.

(** *** The stages, innermost first *)

Ltac relate :=
  unfold quiet, answered, logs, serves_identified, spans in *; go_proj_all;
  rewrite ?lookup_insert_ne by discriminate.

Lemma healthRoute_runs nx :
  RunsTo (fun st => logged st.2)
    (fun st st' =>
       quiet st st' /\ StatusCode st'.2 = 200
       /\ exists now, RespBody st'.2 = JSON (model.HealthCheckResponse now "OK"))
    (healthRoute nx).
Proof.
  intros [w c] ((((Ht & _) & _) & _) & p & f & Hl). cbn [snd] in Ht, Hl.
  unfold healthRoute, request.GetTracer, request.GetLogger. go_step.
  rewrite Ht. go_step. rewrite Hl. go_step.
  destruct p; go_step; (eexists _, _; split; [reflexivity|]); relate;
    (split; [|eauto]); repeat split; (eexists; split; [added|replay]).
Qed.

Lemma next_health_runs :
  RunsTo (fun st => logged st.2)
    (fun st st' => quiet st st' /\ answered routeMatches st st')
    (next routeMatches [(Get "/health", healthRoute)]).
Proof.
  intros [w c] HL. unfold next, serves. go_step. unfold answered. cbn [fst snd].
  destruct (routeMatches "GET" "/health" (Req c)).
  - destruct (healthRoute_runs notFound (w, c) HL) as (e & st' & E & Hq & Hs & Hb).
    eauto 10.
  - unfold notFound. go_step. eexists _, _. split; [reflexivity|].
    unfold quiet, spans. cbn [fst snd]. repeat split.
    exists []. split; [reflexivity|apply nested_nil].
Qed.

Lemma spanTagsMiddleware_runs nx :
  RunsTo (fun st => logged st.2)
    (fun st st' => quiet st st' /\ answered routeMatches st st') nx ->
  RunsTo (fun st => logged st.2)
    (fun st st' => quiet st st' /\ answered routeMatches st st') (spanTagsMiddleware nx).
Proof.
  intros Hnx [w c] HL.
  pose proof HL as ((((_ & span & Hs & Huc) & rid' & Hr) & uid & Hu) & _).
  cbn [snd] in Hs, Huc, Hr, Hu.
  unfold spanTagsMiddleware, LocalSpan, LocalString. go_step.
  rewrite Hs. go_step. rewrite Hu. go_step. rewrite Hr. go_step.
  match goal with |- context [nx ?st] =>
    destruct (Hnx st) as (e & [w' c'] & E & Hq & Ha) end.
  { exact HL. }
  rewrite E. go_step. eexists _, _. split; [reflexivity|]. relate.
  destruct Hq as (Hq1 & Hq2 & Hq3 & Hq4 & Hq5 & Hq6 & events & Ht & Hn).
  rewrite Huc in *.
  repeat split; try assumption.
  eexists. split; [rewrite Ht; added|nested].
Qed.

Lemma loggingMiddleware_runs nx :
  RunsTo (fun st => logged st.2)
    (fun st st' => quiet st st' /\ answered routeMatches st st') nx ->
  RunsTo (fun st => WellTyped (metric.metricMap (metricPublisher st.1)) /\ resolved st.2)
    (logs routeMatches) (loggingMiddleware nx).
Proof.
  intros Hnx [w c] [Hw HL].
  pose proof HL as (((Ht & span & Hs & Huc) & rid' & Hr) & uid & Hu).
  cbn [fst snd] in Hw, Ht, Hs, Huc, Hr, Hu.
  unfold loggingMiddleware, LocalString, request.GetTracer. go_step.
  rewrite Ht. go_step. rewrite Hr. go_step. rewrite Hu. go_step.
  match goal with |- context [nx ?st] =>
    destruct (Hnx st) as (e & [w' c'] & E & Hq & Ha) end.
  { unfold logged, resolved, identified, traced. go_proj.
    rewrite !lookup_insert_ne by discriminate. rewrite lookup_insert_eq. eauto 10. }
  rewrite E. go_step. relate.
  destruct Hq as (Hq1 & Hq2 & Hq3 & Hq4 & Hq5 & Hq6 & events & Htr & Hn).
  match goal with |- context [publishMetrics ?t (?w1, ?c1)] =>
    destruct (publishMetrics_runs t w1 c1) as (w2 & E2 & Hc2 & Ho2 & Hp2 & Hw2 & Ht2) end.
  { go_proj. rewrite Hq2. exact Hw. }
  rewrite E2. go_step. eexists _, _. split; [reflexivity|]. relate.
  rewrite Hc2, Ho2, Hq1, Hq3. rewrite Hq2, Hq4 in Hp2.
  repeat split; try assumption; try tauto.
  eexists. split; [rewrite Ht2, Htr; added|nested].
Qed.

Lemma resolveUser_runs ip w c :
  userCache w <> None ->
  exists id w',
    resolveUser ip (w, c) = Ok (id, (w', c))
    /\ userCache w' <> None
    /\ metricPublisher w' = metricPublisher w
    /\ opsProcessed w' = opsProcessed w
    /\ trace w' = trace w.
Proof.
  intros Hc. destruct (userCache w) as [cache|] eqn:E; [|contradiction].
  destruct (simplelru.items (simplelru.evictList cache) ip) as [ent|] eqn:Hi.
  - rewrite (resolveUser_hit _ _ _ _ _ E Hi). eexists _, _. split; [reflexivity|].
    split; [discriminate|repeat split; reflexivity].
  - rewrite (resolveUser_miss _ _ _ _ E Hi). eexists _, _. split; [reflexivity|].
    split; [discriminate|repeat split; reflexivity].
Qed.

Lemma userMiddleware_runs nx :
  RunsTo (fun st => WellTyped (metric.metricMap (metricPublisher st.1)) /\ resolved st.2)
    (logs routeMatches) nx ->
  RunsTo (fun st => Healthy st.1 /\ identified st.2)
    (serves_identified routeMatches) (userMiddleware nx).
Proof.
  intros Hnx [w c] [[Hc Hw] HL].
  pose proof HL as ((Ht & span & Hs & Huc) & rid' & Hr).
  cbn [fst snd] in Hc, Hw, Ht, Hs, Huc, Hr.
  unfold userMiddleware, request.GetTracer. go_step. rewrite Ht. go_step.
  match goal with |- context [resolveUser ?ip (?w1, ?c1)] =>
    destruct (resolveUser_runs ip w1 c1) as (id & w' & E & Hc' & Hm' & Ho' & Ht') end.
  { go_proj. exact Hc. }
  rewrite E. go_step.
  match goal with |- context [nx ?st] =>
    destruct (Hnx st) as (e & [w2 c2] & E' & Hl) end.
  { split.
    - go_proj. rewrite Hm'. go_proj. exact Hw.
    - unfold resolved, identified, traced. go_proj.
      rewrite !lookup_insert_ne by discriminate. rewrite lookup_insert_eq. eauto 10. }
  rewrite E'. eexists _, _. split; [reflexivity|]. relate.
  destruct Hl as (H1 & H2 & H3 & H4 & H5 & H6 & H7 & H8 & events & Htr & Hn).
  rewrite Hm' in H3. rewrite Ho' in H2. rewrite H1.
  repeat split; try assumption.
  eexists. split; [rewrite Htr, Ht'; added|nested].
Qed.

Lemma RunsTo_ext P Q (m m' : M Err) :
  (forall st, m st = m' st) -> RunsTo P Q m' -> RunsTo P Q m.
Proof. intros Heq H st HP. rewrite Heq. apply H; assumption. Qed.

Lemma next_Use h rest st :
  next routeMatches ((Use, h) :: rest) st = h (next routeMatches rest) st.
Proof. reflexivity. Qed.

Lemma next_Get_skip path h rest w c :
  routeMatches "GET" path (Req c) = false ->
  next routeMatches ((Get path, h) :: rest) (w, c) = next routeMatches rest (w, c).
Proof. intros H. cbn [next]. unfold serves. go_step. rewrite H. reflexivity. Qed.

(** The chain after the request-id middleware. *)
Lemma after_requestid_runs :
  RunsTo (fun st => Healthy st.1 /\ identified st.2) (serves_identified routeMatches)
    (next routeMatches
       [ (Use, userMiddleware); (Use, loggingMiddleware); (Use, spanTagsMiddleware);
         (Get "/health", healthRoute) ]).
Proof.
  eapply RunsTo_ext; [apply next_Use|]. apply userMiddleware_runs.
  eapply RunsTo_ext; [apply next_Use|]. apply loggingMiddleware_runs.
  eapply RunsTo_ext; [apply next_Use|]. apply spanTagsMiddleware_runs.
  apply next_health_runs.
Qed.

(** The request-id middleware puts the identifier of the request in the
    response header; the stages after it keep it. *)
Lemma requestid_New_runs nx w c :
  RunsTo (fun st => Healthy st.1 /\ identified st.2) (serves_identified routeMatches) nx ->
  Healthy w -> traced c ->
  exists e w' c',
    requestid_New nx (w, c) = Ok (e, (w', c'))
    /\ RespHeader c' !! HeaderXRequestID = Some (requestIdOf (Req c) w)
    /\ Healthy w'
    /\ opsProcessed w' = opsProcessed w + 1
    /\ published (Req c) (metricPublisher w) (metricPublisher w')
    /\ answered routeMatches (w, c) (w', c')
    /\ spans (w, c) (w', c').
Proof.
  intros Hnx [Hc Hw] (Ht & span & Hs & Huc). unfold requestid_New, requestIdOf. go_step.
  destruct (String.eqb (default "" (Header (Req c) !! HeaderXRequestID)) ""); go_step;
    (match goal with |- context [nx ?st] =>
       destruct (Hnx st) as (e & [w' c'] & E & H1 & H2 & H3 & H4 & H5 & H6 & H7 & H8) end;
     [ split;
       [ split; go_proj; assumption
       | unfold identified, traced; go_proj; rewrite !lookup_insert_ne by discriminate;
         rewrite lookup_insert_eq; eauto 10 ]
     | rewrite E; exists e, w', c'; split; [reflexivity|]; relate;
       rewrite lookup_insert_eq in H6; unfold Healthy; tauto ]).
Qed.

(** What serving an admitted request does, for a request that reaches the
    limiter and a healthy world. *)
Lemma serve_accepted (remaining reset : string) (r : Request) (w : World) :
  reachesLimiter routeMatches r = true ->
  Healthy w ->
  exists resp w',
    serve routeMatches (Accept remaining reset) r w = Ok (resp, w')
    /\ respHeader resp !! HeaderXRequestID = Some (requestIdOf r w)
    /\ Healthy w'
    /\ opsProcessed w' = opsProcessed w + 1
    /\ published r (metricPublisher w) (metricPublisher w')
    /\ respStatus resp = 200
    /\ (if routeMatches "GET" "/health" r
        then exists now, respBody resp = JSON (model.HealthCheckResponse now "OK")
        else respBody resp = NoBody)
    /\ exists inner,
         trace w' = ((SpanFinish (Path r) :: inner ++ [SpanStart (Path r) None])
                     ++ trace w)%list
         /\ nestedFrom (Some (Path r)) inner.
Proof.
  unfold reachesLimiter. intros H Hh. apply andb_true_iff in H as [Hm Hp].
  apply negb_true_iff in Hm.
  unfold serve, stack.
  rewrite next_Get_skip by exact Hm.
  rewrite next_Use. unfold pprof_New. go_step. rewrite Hp.
  rewrite next_Use. unfold limiter_New. go_step.
  rewrite next_Use. unfold zipkinMiddleware. go_step.
  rewrite next_Use.
  match goal with |- context [requestid_New ?nx (?w1, ?c1)] =>
    destruct (requestid_New_runs nx w1 c1)
      as (e & w' & c' & E & Hr & Hh' & Ho & Hp' & Ha & Hu & inner & Htr & Hn) end.
  { apply after_requestid_runs. }
  { destruct Hh. split; go_proj; assumption. }
  { unfold traced. go_proj. rewrite lookup_insert_ne by discriminate.
    rewrite !lookup_insert_eq. eauto. }
  rewrite E. go_step. relate. unfold requestIdOf in *. go_proj_all.
  eexists _, _. split; [reflexivity|]. go_proj.
  rewrite !lookup_insert_ne by discriminate.
  split; [exact Hr|]. split; [destruct Hh'; split; go_proj; assumption|].
  split; [exact Ho|]. split; [exact Hp'|].
  split; [destruct (routeMatches "GET" "/health" r); tauto|].
  split; [destruct (routeMatches "GET" "/health" r); tauto|].
  exists inner. split; [|exact Hn].
  rewrite Htr. cbn [app]. rewrite <- app_assoc. reflexivity.
Qed.

(** Requests answered before the limiter: the world is not touched. *)
Lemma serve_metrics decision (r : Request) (w : World) :
  routeMatches "GET" "/metrics" r = true ->
  serve routeMatches decision r w = Ok (mkResponse 200 (Page "promhttp") ∅, w).
Proof.
  intros Hm. unfold serve, stack. cbn [next]. unfold serves at 1. go_step.
  rewrite Hm. unfold metricsRoute. go_step. reflexivity.
Qed.

Lemma serve_pprof decision (r : Request) (w : World) :
  routeMatches "GET" "/metrics" r = false ->
  (String.length (Path r) <? 12)%nat || negb (String.prefix "/debug/pprof" (Path r)) = false ->
  serve routeMatches decision r w = Ok (mkResponse 200 (Page "pprof") ∅, w).
Proof.
  intros Hm Hp. unfold serve, stack. rewrite next_Get_skip by exact Hm.
  rewrite next_Use. unfold pprof_New. go_step. rewrite Hp. go_step. reflexivity.
Qed.

(** *** Properties of the chain *)

(** A rejected request gets the JSON payload and leaves no trace. *)
Theorem rejected_request_gets_json (retryAfter : string) (r : Request) (w : World) :
  reachesLimiter routeMatches r = true ->
  exists resp w',
    serve routeMatches (Reject retryAfter) r w = Ok (resp, w')
    /\ respBody resp = JSON (model.ErrorResponse (clock w (clockReads w)) limitMessage)
    /\ respHeader resp !! HeaderContentType = Some MIMEApplicationJSON
    /\ respHeader resp !! HeaderRetryAfter = Some retryAfter
    /\ respStatus resp = 200
    /\ trace w' = trace w
    /\ opsProcessed w' = opsProcessed w
    /\ metricPublisher w' = metricPublisher w
    /\ userCache w' = userCache w
    /\ uuidsDrawn w' = uuidsDrawn w.
Proof.
  intros H. eexists _, _. split; [apply (serve_rejected _ _ _ H)|].
  cbn [respBody respHeader respStatus]. split; [reflexivity|].
  split; [apply lookup_insert_eq|].
  split; [rewrite lookup_insert_ne by discriminate; apply lookup_insert_eq|].
  repeat split.
Qed.

(** The request-id header: present on the response to an admitted request,
    with the identifier of the request; absent from a rejection. *)
Theorem request_id_header (r : Request) (w : World) :
  reachesLimiter routeMatches r = true ->
  (Healthy w ->
   forall remaining reset, exists resp w',
     serve routeMatches (Accept remaining reset) r w = Ok (resp, w')
     /\ respHeader resp !! HeaderXRequestID = Some (requestIdOf r w))
  /\ (forall retryAfter, exists resp w',
        serve routeMatches (Reject retryAfter) r w = Ok (resp, w')
        /\ respHeader resp !! HeaderXRequestID = None).
Proof.
  intros H. split.
  - intros Hh remaining reset.
    destruct (serve_accepted remaining reset r w H Hh) as (resp & w' & E & Hr & _).
    eauto.
  - intros retryAfter. eexists _, _. split; [apply (serve_rejected _ _ _ H)|].
    cbn [respHeader]. rewrite !lookup_insert_ne by discriminate. apply lookup_empty.
Qed.

(** Without a cache the identity middleware panics. *)
Theorem nil_cache_panics (remaining reset : string) (r : Request) (w : World) :
  reachesLimiter routeMatches r = true ->
  userCache w = None ->
  serve routeMatches (Accept remaining reset) r w
  = Panic "invalid memory address or nil pointer dereference".
Proof.
  unfold reachesLimiter. intros H Hnil. apply andb_true_iff in H as [Hm Hp].
  apply negb_true_iff in Hm.
  unfold serve, stack.
  rewrite next_Get_skip by exact Hm.
  rewrite next_Use. unfold pprof_New. go_step. rewrite Hp.
  rewrite next_Use. unfold limiter_New. go_step.
  rewrite next_Use. unfold zipkinMiddleware. go_step.
  rewrite next_Use. unfold requestid_New. go_step.
  destruct (String.eqb (default "" (Header r !! HeaderXRequestID)) ""); go_step;
    rewrite next_Use; unfold userMiddleware, request.GetTracer; go_step;
    rewrite !lookup_insert_ne by discriminate; rewrite lookup_insert_eq; go_step;
    unfold resolveUser; go_step; rewrite Hnil; reflexivity.
Qed.

(** An admitted request is counted and published whether or not a route
    serves it; the keys of the metric map stay. *)
Theorem accepted_request_is_counted (remaining reset : string) (r : Request) (w : World) :
  reachesLimiter routeMatches r = true ->
  Healthy w ->
  exists resp w',
    serve routeMatches (Accept remaining reset) r w = Ok (resp, w')
    /\ opsProcessed w' = opsProcessed w + 1
    /\ published r (metricPublisher w) (metricPublisher w')
    /\ dom (metric.metricMap (metricPublisher w'))
       = dom (metric.metricMap (metricPublisher w)).
Proof.
  intros H Hh.
  destruct (serve_accepted remaining reset r w H Hh)
    as (resp & w' & E & _ & _ & Ho & Hp & _).
  exists resp, w'. split; [exact E|]. split; [exact Ho|]. split; [exact Hp|].
  destruct Hp as (millis & mc1 & E1 & E2).
  apply PublishCounter_inv in E1 as [D1 _]. apply GetHistogram_inv in E2 as [D2 _].
  congruence.
Qed.

(** The answer to an admitted request: the payload of /health when the router
    selects that route, an empty body otherwise, under status 200 in both
    cases. *)
Theorem accepted_request_answer (remaining reset : string) (r : Request) (w : World) :
  reachesLimiter routeMatches r = true ->
  Healthy w ->
  exists resp w',
    serve routeMatches (Accept remaining reset) r w = Ok (resp, w')
    /\ respStatus resp = 200
    /\ (routeMatches "GET" "/health" r = true ->
        exists now, respBody resp = JSON (model.HealthCheckResponse now "OK"))
    /\ (routeMatches "GET" "/health" r = false -> respBody resp = NoBody).
Proof.
  intros H Hh.
  destruct (serve_accepted remaining reset r w H Hh)
    as (resp & w' & E & _ & _ & _ & _ & Hs & Hb & _).
  exists resp, w'. split; [exact E|]. split; [exact Hs|].
  destruct (routeMatches "GET" "/health" r); split; intros; try discriminate; assumption.
Qed.

(** The spans of an accepted request: the events it adds to the trace start
    with the root span, named after the path and without parent, end with
    the finish of that span, and in between every span starts as a child of
    the span then open, finishes while it is the innermost open one, and is
    tagged only while open; no span is left open. *)
Theorem spans_well_nested (remaining reset : string) (r : Request) (w : World) :
  reachesLimiter routeMatches r = true ->
  Healthy w ->
  exists resp w' events,
    serve routeMatches (Accept remaining reset) r w = Ok (resp, w')
    /\ trace w' = (events ++ trace w)%list
    /\ replaySpans (rev events) [] = Some []
    /\ head (rev events) = Some (SpanStart (Path r) None)
    /\ head events = Some (SpanFinish (Path r)).
Proof.
  intros H Hh.
  destruct (serve_accepted remaining reset r w H Hh)
    as (resp & w' & E & _ & _ & _ & _ & _ & _ & inner & Htr & Hn).
  exists resp, w', (SpanFinish (Path r) :: inner ++ [SpanStart (Path r) None])%list.
  split; [exact E|]. split; [exact Htr|]. split; [|split; [|reflexivity]].
  - exact (nested_wrap (Path r) None inner Hn [] eq_refl).
  - cbn [rev]. rewrite rev_app_distr. reflexivity.
Qed.

(** Every request is served by a healthy world, which stays healthy. *)
Lemma serve_healthy decision (r : Request) (w : World) :
  Healthy w ->
  exists resp w',
    serve routeMatches decision r w = Ok (resp, w')
    /\ Healthy w'
    /\ opsProcessed w' = opsProcessed w + acceptedCount routeMatches [(decision, r)].
Proof.
  intros Hh. unfold acceptedCount. cbn [List.filter fst snd].
  destruct (reachesLimiter routeMatches r) eqn:H.
  - destruct decision as [remaining reset|retryAfter].
    + destruct (serve_accepted remaining reset r w H Hh)
        as (resp & w' & E & _ & Hh' & Ho & _).
      exists resp, w'. split; [exact E|]. split; [exact Hh'|]. simpl. lia.
    + rewrite (serve_rejected _ _ _ H). eexists _, _. split; [reflexivity|].
      split; [exact Hh|]. go_proj. simpl. lia.
  - assert (E : exists resp, serve routeMatches decision r w = Ok (resp, w)).
    { unfold reachesLimiter in H. apply andb_false_iff in H as [H|H].
      - apply negb_false_iff in H. rewrite (serve_metrics _ _ _ H). eauto.
      - destruct (routeMatches "GET" "/metrics" r) eqn:Hm.
        + rewrite (serve_metrics _ _ _ Hm). eauto.
        + rewrite (serve_pprof _ _ _ Hm H). eauto. }
    destruct E as [resp E]. exists resp, w. split; [exact E|]. split; [exact Hh|].
    destruct decision; simpl; lia.
Qed.

Lemma acceptedCount_cons dr rest :
  acceptedCount routeMatches (dr :: rest)
  = acceptedCount routeMatches [dr] + acceptedCount routeMatches rest.
Proof.
  unfold acceptedCount. cbn [List.filter].
  destruct (match dr.1 with Accept _ _ => _ | Reject _ => false end); simpl length; lia.
Qed.

(** A healthy world serves every sequence of requests: no request panics,
    each gets its response, and the counter of processed operations grows by
    the number of admitted requests. *)
Theorem healthy_world_serves_all (requests : list (Admission * Request)) :
  forall w, Healthy w ->
  exists resps w',
    serveAll routeMatches requests w = Ok (resps, w')
    /\ length resps = length requests
    /\ Healthy w'
    /\ opsProcessed w' = opsProcessed w + acceptedCount routeMatches requests.
Proof.
  induction requests as [|[decision r] rest IH]; intros w Hh.
  - exists [], w. split; [reflexivity|]. split; [reflexivity|]. split; [assumption|].
    unfold acceptedCount. simpl. lia.
  - destruct (serve_healthy decision r w Hh) as (resp & w1 & E & Hh1 & Ho1).
    destruct (IH w1 Hh1) as (resps & w' & E' & Hl & Hh' & Ho').
    exists (resp :: resps), w'. cbn [serveAll]. rewrite E. cbn [rbind fst snd].
    rewrite E'. cbn [rbind fst snd]. split; [reflexivity|].
    split; [simpl; congruence|]. split; [exact Hh'|].
    rewrite (acceptedCount_cons (decision, r) rest). lia.
Qed.

(** The route /metrics and the profiler are bound before every middleware:
    a request they serve is answered without the limiter being asked, and
    leaves the world as it was: no span, no log line, no metric, no request
    id, whatever the limiter would have decided. *)
Theorem metrics_and_profiler_bypass_chain decision (r : Request) (w : World) :
  reachesLimiter routeMatches r = false ->
  exists page,
    serve routeMatches decision r w = Ok (mkResponse 200 (Page page) ∅, w)
    /\ (routeMatches "GET" "/metrics" r = true -> page = "promhttp")
    /\ (routeMatches "GET" "/metrics" r = false -> page = "pprof").
Proof.
  unfold reachesLimiter. intros H.
  destruct (routeMatches "GET" "/metrics" r) eqn:Hm.
  - exists "promhttp". rewrite (serve_metrics _ _ _ Hm).
    split; [reflexivity|]. split; [reflexivity|discriminate].
  - cbn [negb andb] in H. exists "pprof". rewrite (serve_pprof _ _ _ Hm H).
    split; [reflexivity|]. split; [discriminate|reflexivity].
Qed.

End Chain.

(** *** The chain on the sample world *)

Lemma sampleWorld_healthy : Healthy sampleWorld.
Proof.
  split.
  - discriminate.
  - apply (WellTyped_insert_histogram _ "GET_health"),
          (WellTyped_insert_counter _ "GET_health"), WellTyped_empty.
Qed.

Lemma rejected_request_gets_json_witness :
  reachesLimiter exactRoute (healthRequest "10.0.0.1") = true
  /\ exists resp w',
       main.serve exactRoute (main.Reject "60") (healthRequest "10.0.0.1") sampleWorld
       = Ok (resp, w')
       /\ fiber.respBody resp = fiber.JSON (model.ErrorResponse 0 main.limitMessage)
       /\ main.trace w' = [].
Proof.
  split; [reflexivity|].
  destruct (rejected_request_gets_json exactRoute "60" (healthRequest "10.0.0.1")
              sampleWorld eq_refl)
    as (resp & w' & E & Hb & _ & _ & _ & Ht & _).
  exists resp, w'. auto.
Defined.

Lemma request_id_header_witness :
  reachesLimiter exactRoute (healthRequest "10.0.0.1") = true
  /\ Healthy sampleWorld
  /\ (exists resp w',
        main.serve exactRoute (main.Accept "29" "60") (healthRequest "10.0.0.1") sampleWorld
        = Ok (resp, w')
        /\ fiber.respHeader resp !! fiber.HeaderXRequestID = Some "uuid-0")
  /\ (exists resp w',
        main.serve exactRoute (main.Reject "60") (healthRequest "10.0.0.1") sampleWorld
        = Ok (resp, w')
        /\ fiber.respHeader resp !! fiber.HeaderXRequestID = None).
Proof.
  split; [reflexivity|]. split; [exact sampleWorld_healthy|].
  destruct (request_id_header exactRoute (healthRequest "10.0.0.1") sampleWorld eq_refl)
    as [Ha Hr].
  split; [exact (Ha sampleWorld_healthy "29" "60")|exact (Hr "60")].
Defined.

Lemma nil_cache_panics_witness :
  let w := worldWith None (fun _ => "id") in
  reachesLimiter exactRoute (healthRequest "10.0.0.1") = true
  /\ main.userCache w = None
  /\ main.serve exactRoute (main.Accept "29" "60") (healthRequest "10.0.0.1") w
     = Panic "invalid memory address or nil pointer dereference".
Proof.
  intros w. split; [reflexivity|]. split; [reflexivity|].
  exact (nil_cache_panics exactRoute "29" "60" (healthRequest "10.0.0.1") w
           eq_refl eq_refl).
Defined.

Lemma accepted_request_is_counted_witness :
  reachesLimiter exactRoute (healthRequest "10.0.0.1") = true
  /\ Healthy sampleWorld
  /\ exists resp w',
       main.serve exactRoute (main.Accept "29" "60") (healthRequest "10.0.0.1") sampleWorld
       = Ok (resp, w')
       /\ main.opsProcessed w' = 1.
Proof.
  split; [reflexivity|]. split; [exact sampleWorld_healthy|].
  destruct (accepted_request_is_counted exactRoute "29" "60" (healthRequest "10.0.0.1")
              sampleWorld eq_refl sampleWorld_healthy)
    as (resp & w' & E & Ho & _).
  exists resp, w'. auto.
Defined.

Lemma accepted_request_answer_witness :
  reachesLimiter exactRoute (healthRequest "10.0.0.1") = true
  /\ Healthy sampleWorld
  /\ exactRoute "GET" "/health" (healthRequest "10.0.0.1") = true
  /\ exists resp w' now,
       main.serve exactRoute (main.Accept "29" "60") (healthRequest "10.0.0.1") sampleWorld
       = Ok (resp, w')
       /\ fiber.respStatus resp = 200
       /\ fiber.respBody resp = fiber.JSON (model.HealthCheckResponse now "OK").
Proof.
  split; [reflexivity|]. split; [exact sampleWorld_healthy|]. split; [reflexivity|].
  destruct (accepted_request_answer exactRoute "29" "60" (healthRequest "10.0.0.1")
              sampleWorld eq_refl sampleWorld_healthy)
    as (resp & w' & E & Hs & Hb & _).
  destruct (Hb eq_refl) as [now Hnow].
  exists resp, w', now. auto.
Defined.

Lemma healthy_world_serves_all_witness :
  Healthy sampleWorld
  /\ exists resps w',
       serveAll exactRoute
         [ (main.Accept "29" "60", healthRequest "10.0.0.1");
           (main.Reject "60", healthRequest "10.0.0.2");
           (main.Accept "28" "60", healthRequest "10.0.0.1") ] sampleWorld
       = Ok (resps, w')
       /\ length resps = 3%nat
       /\ main.opsProcessed w' = 2.
Proof.
  split; [exact sampleWorld_healthy|].
  destruct (healthy_world_serves_all exactRoute
              [ (main.Accept "29" "60", healthRequest "10.0.0.1");
                (main.Reject "60", healthRequest "10.0.0.2");
                (main.Accept "28" "60", healthRequest "10.0.0.1") ]
              sampleWorld sampleWorld_healthy)
    as (resps & w' & E & Hl & _ & Ho).
  exists resps, w'. auto.
Defined.

Lemma metrics_and_profiler_bypass_chain_witness :
  let r := fiber.mkRequest "GET" "/metrics" "10.0.0.1" ∅ in
  reachesLimiter exactRoute r = false
  /\ main.serve exactRoute (main.Reject "60") r sampleWorld
     = Ok (fiber.mkResponse 200 (fiber.Page "promhttp") ∅, sampleWorld).
Proof.
  intros r. split; [reflexivity|].
  destruct (metrics_and_profiler_bypass_chain exactRoute (main.Reject "60") r sampleWorld
              eq_refl) as (page & E & Hp & _).
  rewrite (Hp eq_refl) in E. exact E.
Defined.

Lemma spans_well_nested_witness :
  reachesLimiter exactRoute (healthRequest "10.0.0.1") = true
  /\ Healthy sampleWorld
  /\ exists resp w' events,
       main.serve exactRoute (main.Accept "29" "60") (healthRequest "10.0.0.1") sampleWorld
       = Ok (resp, w')
       /\ main.trace w' = events
       /\ replaySpans (rev events) [] = Some []
       /\ head events = Some (main.SpanFinish "/health").
Proof.
  split; [reflexivity|]. split; [exact sampleWorld_healthy|].
  destruct (spans_well_nested exactRoute "29" "60" (healthRequest "10.0.0.1") sampleWorld
              eq_refl sampleWorld_healthy)
    as (resp & w' & events & E & Ht & Hr & _ & Hl).
  exists resp, w', events. split; [exact E|]. split; [|auto].
  rewrite Ht. apply app_nil_r.
Defined.

(** *** Errors of the rest of the chain *)

Section Errors.

Import main fiber.

Ltac go_cases :=
  repeat (cbv beta iota zeta delta
            [bind ret rbind panic lift getCtx getWorld modifyCtx modifyWorld
             emit time_Now time_Since uuid_New StartSpanFromContext Finish Tag Info Debug
             fst snd];
          try match goal with
              | |- context [match ?x with _ => _ end] => destruct x eqn:?
              end).

(** The tracing, logging and span-tag middleware return nil whatever the rest
    of the chain returned to them; the limiter (for an admitted request), the
    request-id and the identity middleware return what [c.Next()] returned. *)
Theorem middleware_drop_errors (nx : M Err) (st : State) :
  (forall e st', zipkinMiddleware nx st = Ok (e, st') -> e = None)
  /\ (forall e st', loggingMiddleware nx st = Ok (e, st') -> e = None)
  /\ (forall e st', spanTagsMiddleware nx st = Ok (e, st') -> e = None)
  /\ (forall e st', requestid_New nx st = Ok (e, st') ->
        exists st1 st2, nx st1 = Ok (e, st2))
  /\ (forall e st', userMiddleware nx st = Ok (e, st') ->
        exists st1 st2, nx st1 = Ok (e, st2))
  /\ (forall remaining reset e st',
        limiter_New (Accept remaining reset) nx st = Ok (e, st') ->
        exists st1 st2, nx st1 = Ok (e, st2)).
Proof.
  repeat split.
  - intros e st'. unfold zipkinMiddleware. go_cases; intros H; try discriminate H.
    injection H as <- _. reflexivity.
  - intros e st'.
    unfold loggingMiddleware, LocalString, publishMetrics, request.GetTracer.
    go_cases; intros H; try discriminate H. injection H as <- _. reflexivity.
  - intros e st'. unfold spanTagsMiddleware, LocalString, LocalSpan.
    go_cases; intros H; try discriminate H. injection H as <- _. reflexivity.
  - intros e st'. unfold requestid_New.
    go_cases; intros H; try discriminate H; eauto.
  - intros e st'. unfold userMiddleware, request.GetTracer.
    go_cases; intros H; try discriminate H; eauto.
  - intros remaining reset e st'. unfold limiter_New.
    go_cases; intros H; try discriminate H. injection H as <- _. eauto.
Qed.

Lemma middleware_drop_errors_witness :
  let st := (sampleWorld, ctxOf "GET" "/nowhere") in
  exists st',
    zipkinMiddleware notFound st = Ok (None, st')
    /\ exists e st1, notFound st = Ok (Some e, st1).
Proof.
  intros st.
  destruct (zipkinMiddleware notFound st) as [[e st']| |] eqn:E;
    [|vm_compute in E; discriminate E..].
  exists st'. split; [|eexists _, _; reflexivity].
  destruct (middleware_drop_errors notFound st) as [Hz _].
  rewrite (Hz e st' E). reflexivity.
Defined.

End Errors.

(** ** More on the metric registry *)

Section RegistryMore.

Import prometheus metric.

Lemma installRoute_fresh st route st' :
  installRoute st route = Ok st' ->
  forall name, In name (routeNames route) -> name ∉ st.2.
Proof.
  unfold installRoute, InsertCounter, InsertHistogram, MustRegister, routeNames.
  fold (routePostfix route). cbn [rbind fst snd].
  destruct (decide (_ ∈ st.2)) as [|Hc]; [discriminate|]. cbn [rbind fst snd].
  destruct (decide (_ ∈ _)) as [|Hh]; [discriminate|]. intros _ name [<-|[<-|[]]].
  - exact Hc.
  - intros Hin. apply Hh. set_solver.
Qed.

Lemma installRoute_never_fatal st route msg : installRoute st route <> Fatal msg.
Proof.
  unfold installRoute, InsertCounter, InsertHistogram, MustRegister.
  cbn [rbind fst snd]. destruct (decide (_ ∈ st.2)); [discriminate|]. cbn [rbind fst snd].
  destruct (decide (_ ∈ _)); discriminate.
Qed.

Lemma installRoute_panic st route msg :
  installRoute st route = Panic msg ->
  msg = "duplicate metrics collector registration attempted".
Proof.
  unfold installRoute, InsertCounter, InsertHistogram, MustRegister.
  cbn [rbind fst snd]. destruct (decide (_ ∈ st.2)); cbn [rbind fst snd]; [congruence|].
  destruct (decide (_ ∈ _)); cbn [rbind fst snd]; [congruence|discriminate].
Qed.

(** What [Initialize] keeps: registered names stay registered, entries of
    the map stay as they are, and the keys of the map are registered names. *)
Lemma Initialize_keeps routes : forall st st',
  Initialize st routes = Ok st' ->
  dom (metricMap st.1) ⊆ st.2 ->
  dom (metricMap st'.1) ⊆ st'.2
  /\ st.2 ⊆ st'.2
  /\ (forall key col, metricMap st.1 !! key = Some col -> metricMap st'.1 !! key = Some col).
Proof.
  induction routes as [|route rest IH]; cbn [Initialize]; intros st st' H Hsub.
  - injection H as <-. auto.
  - destruct (installRoute st route) as [st1| |] eqn:E; cbn [rbind] in H; try discriminate H.
    pose proof (installRoute_fresh _ _ _ E) as Hfresh.
    apply installRoute_inv in E as [Em Er].
    assert (Hsub1 : dom (metricMap st1.1) ⊆ st1.2).
    { rewrite Em, Er, !dom_insert_L. unfold routeNames. set_solver. }
    destruct (IH st1 st' H Hsub1) as (H1 & H2 & H3).
    split; [exact H1|]. split; [set_solver|].
    intros key col Hk. apply H3. rewrite Em.
    assert (Hin : key ∈ st.2) by (apply Hsub; apply elem_of_dom; eauto).
    rewrite !lookup_insert_ne; [exact Hk| |].
    + intros <-. refine (Hfresh _ _ Hin). unfold routeNames. simpl. auto.
    + intros <-. refine (Hfresh _ _ Hin). unfold routeNames. simpl. auto.
Qed.

Lemma Initialize_lookup routes : forall st st' route,
  Initialize st routes = Ok st' ->
  dom (metricMap st.1) ⊆ st.2 ->
  In route routes ->
  metricMap st'.1 !! Sprintf_s_s HttpRequestCountMetricName (routePostfix route)
    = Some (Counter 0)
  /\ metricMap st'.1 !! Sprintf_s_s HttpRequestDurationMetricName (routePostfix route)
     = Some (Histogram latencyBuckets []).
Proof.
  induction routes as [|r0 rest IH]; cbn [Initialize]; intros st st' route H Hsub Hin;
    [destruct Hin|].
  destruct (installRoute st r0) as [st1| |] eqn:E; cbn [rbind] in H; try discriminate H.
  apply installRoute_inv in E as [Em Er].
  assert (Hsub1 : dom (metricMap st1.1) ⊆ st1.2).
  { rewrite Em, Er, !dom_insert_L. unfold routeNames. set_solver. }
  destruct Hin as [<-|Hin]; [|exact (IH st1 st' route H Hsub1 Hin)].
  destruct (Initialize_keeps rest st1 st' H Hsub1) as (_ & _ & Hk).
  split; apply Hk; rewrite Em.
  - rewrite lookup_insert_ne by (intros Heq; exact (count_name_not_duration _ _ (eq_sym Heq))).
    apply lookup_insert_eq.
  - apply lookup_insert_eq.
Qed.

Lemma Initialize_ok_inv routes : forall st st',
  Initialize st routes = Ok st' ->
  NoDup (List.map routePostfix routes)
  /\ (forall route name, In route routes -> In name (routeNames route) -> name ∉ st.2).
Proof.
  induction routes as [|r0 rest IH]; cbn [Initialize]; intros st st' H.
  - split; [constructor|]. intros route name [].
  - destruct (installRoute st r0) as [st1| |] eqn:E; cbn [rbind] in H; try discriminate H.
    pose proof (installRoute_fresh _ _ _ E) as Hfresh.
    apply installRoute_inv in E as [_ Er].
    destruct (IH st1 st' H) as [Hnd Hrest]. split.
    + cbn [List.map]. constructor; [|exact Hnd].
      intros Hin. apply list_elem_of_In, in_map_iff in Hin as (r & Hr & Hin).
      apply (Hrest r (Sprintf_s_s HttpRequestCountMetricName (routePostfix r)) Hin).
      { unfold routeNames. simpl. auto. }
      rewrite Er, Hr. unfold routeNames. set_solver.
    + intros route name [<-|Hin] Hname; [exact (Hfresh name Hname)|].
      intros Hreg. apply (Hrest route name Hin Hname). rewrite Er. set_solver.
Qed.

Lemma Initialize_not_ok routes : forall st,
  (forall st', Initialize st routes <> Ok st') ->
  Initialize st routes = Panic "duplicate metrics collector registration attempted".
Proof.
  induction routes as [|r0 rest IH]; cbn [Initialize]; intros st H.
  - exfalso. exact (H st eq_refl).
  - destruct (installRoute st r0) as [st1|msg|msg] eqn:E; cbn [rbind] in *.
    + apply IH. exact H.
    + rewrite (installRoute_panic _ _ _ E). reflexivity.
    + exfalso. exact (installRoute_never_fatal _ _ _ E).
Qed.

(** [Initialize] gives every route of the table a counter at zero and an
    empty histogram with the latency buckets, under the two names of the
    route; a request with the method and the path of such a route finds that
    counter, and its first publication sets it to one. *)
Theorem Initialize_registers_routes routes reg mc reg' route :
  Initialize (NewMetricPublisher, reg) routes = Ok (mc, reg') ->
  In route routes ->
  let count := Sprintf_s_s HttpRequestCountMetricName (routePostfix route) in
  let duration := Sprintf_s_s HttpRequestDurationMetricName (routePostfix route) in
  metricMap mc !! count = Some (Counter 0)
  /\ metricMap mc !! duration = Some (Histogram latencyBuckets [])
  /\ count ∈ reg' /\ duration ∈ reg'
  /\ PublishCounter mc HttpRequestCountMetricName
       (ctxOf (fiber.RouteMethod route) (fiber.RoutePath route))
     = Ok (mkMetricPublisher (<[count := Counter 1]> (metricMap mc))).
Proof.
  intros H Hin count duration. subst count duration.
  assert (Hsub : dom (metricMap (NewMetricPublisher, reg).1) ⊆ (NewMetricPublisher, reg).2).
  { cbn [fst snd NewMetricPublisher metricMap]. rewrite dom_empty_L. set_solver. }
  destruct (Initialize_lookup routes _ _ route H Hsub Hin) as [Hc Hd].
  destruct (Initialize_keeps routes _ _ H Hsub) as (Hdom & _ & _).
  cbn [fst snd] in *. split; [exact Hc|]. split; [exact Hd|].
  split; [apply Hdom, elem_of_dom; eauto|]. split; [apply Hdom, elem_of_dom; eauto|].
  assert (Hk : GetMetricName (ctxOf (fiber.RouteMethod route) (fiber.RoutePath route))
               = routePostfix route) by reflexivity.
  unfold PublishCounter. rewrite Hk, Hc. reflexivity.
Qed.

(** [Initialize] on a new publisher returns exactly when the postfixes of the
    routes are pairwise distinct and none of their names is registered
    already; otherwise it panics on the duplicate registration. *)
Theorem Initialize_returns_iff routes reg :
  ((exists st', Initialize (NewMetricPublisher, reg) routes = Ok st')
   <-> (NoDup (List.map routePostfix routes)
        /\ forall route name, In route routes -> In name (routeNames route) -> name ∉ reg))
  /\ ((forall st', Initialize (NewMetricPublisher, reg) routes <> Ok st') ->
      Initialize (NewMetricPublisher, reg) routes
      = Panic "duplicate metrics collector registration attempted").
Proof.
  split; [split|].
  - intros [st' H]. exact (Initialize_ok_inv routes _ _ H).
  - intros [Hnd Hfresh]. exact (Initialize_returns routes (NewMetricPublisher, reg) Hnd Hfresh).
  - apply Initialize_not_ok.
Qed.

(** No histogram is ever registered under the name of the microsecond
    duration: on a publisher that [Initialize] produced, the publication of
    a microsecond duration changes nothing, for every request. *)
Theorem micro_histogram_never_registered routes reg mc reg' :
  Initialize (NewMetricPublisher, reg) routes = Ok (mc, reg') ->
  (forall x, metricMap mc !! Sprintf_s_s HttpRequestDurationMicroMetricName x = None)
  /\ (forall c v, PublishHistogram mc HttpRequestDurationMicroMetricName c v = Ok mc).
Proof.
  intros H.
  assert (Hw : WellTyped (metricMap mc)).
  { apply (Initialize_WellTyped routes (NewMetricPublisher, reg) (mc, reg'));
      [apply WellTyped_empty|exact H]. }
  split.
  - intros x. exact (WellTyped_micro _ x Hw).
  - intros c v. unfold PublishHistogram, GetHistogram.
    rewrite (WellTyped_micro _ _ Hw). reflexivity.
Qed.

(** On a publisher that [Initialize] produced, the publications as [main]
    makes them never panic: the counter under the count name, the histogram
    under the millisecond name, for every request.  Publishing a counter
    under the millisecond name of a route of the table, or a histogram under
    its count name, fails the type assertion. *)
Theorem initialized_publisher_kinds routes reg mc reg' :
  Initialize (NewMetricPublisher, reg) routes = Ok (mc, reg') ->
  (forall c, exists mc', PublishCounter mc HttpRequestCountMetricName c = Ok mc')
  /\ (forall c v, exists mc', GetHistogram mc HttpRequestDurationMetricName c v = Ok mc')
  /\ (forall route c v, In route routes -> GetMetricName c = routePostfix route ->
        PublishCounter mc HttpRequestDurationMetricName c
        = Panic "interface conversion: interface {} is not prometheus.Counter"
        /\ GetHistogram mc HttpRequestCountMetricName c v
           = Panic "interface conversion: interface {} is not prometheus.Histogram").
Proof.
  intros H.
  assert (Hw : WellTyped (metricMap mc)).
  { apply (Initialize_WellTyped routes (NewMetricPublisher, reg) (mc, reg'));
      [apply WellTyped_empty|exact H]. }
  split; [|split].
  - intros c. unfold PublishCounter.
    destruct (WellTyped_count _ (GetMetricName c) Hw) as [E|[n E]]; rewrite E; eauto.
  - intros c v. unfold GetHistogram.
    destruct (WellTyped_duration _ (GetMetricName c) Hw) as [E|(bs & obs & E)];
      rewrite E; eauto.
  - intros route c v Hin Hk.
    assert (Hsub : dom (metricMap (NewMetricPublisher, reg).1) ⊆ (NewMetricPublisher, reg).2).
    { cbn [fst snd NewMetricPublisher metricMap]. rewrite dom_empty_L. set_solver. }
    destruct (Initialize_lookup routes _ _ route H Hsub Hin) as [Hc Hd].
    cbn [fst] in Hc, Hd.
    unfold PublishCounter, GetHistogram. rewrite Hk, Hc, Hd. split; reflexivity.
Qed.

(** Publications accumulate: [n] publications add [n] to a counter, and the
    observations of a list of durations are all kept by the histogram, the
    last one first; no other entry of the map changes. *)
Theorem publications_accumulate (c : fiber.Ctx) (prefix : string) :
  let key := Sprintf_s_s prefix (GetMetricName c) in
  (forall n mc count,
      metricMap mc !! key = Some (Counter count) ->
      publishCounterTimes n mc prefix c
      = Ok (mkMetricPublisher (<[key := Counter (count + Z.of_nat n)]> (metricMap mc))))
  /\ (forall values mc bs obs,
        metricMap mc !! key = Some (Histogram bs obs) ->
        observeAll values mc prefix c
        = Ok (mkMetricPublisher
                (<[key := Histogram bs (rev values ++ obs)%list]> (metricMap mc)))).
Proof.
  intros key. split.
  - induction n as [|n IH]; intros mc count H; cbn [publishCounterTimes].
    + destruct mc as [m]. cbn [metricMap] in *. rewrite Z.add_0_r, insert_id by exact H.
      reflexivity.
    + unfold PublishCounter. fold key. rewrite H. cbn [rbind].
      rewrite (IH _ (count + 1)) by (cbn [metricMap]; apply lookup_insert_eq).
      cbn [metricMap]. rewrite insert_insert_eq.
      replace (count + Z.of_nat (S n)) with (count + 1 + Z.of_nat n) by lia. reflexivity.
  - induction values as [|v values IH]; intros mc bs obs H; cbn [observeAll].
    + destruct mc as [m]. cbn [metricMap rev app] in *. rewrite insert_id by exact H.
      reflexivity.
    + unfold GetHistogram. fold key. rewrite H. cbn [rbind].
      rewrite (IH _ bs (v :: obs)) by (cbn [metricMap]; apply lookup_insert_eq).
      cbn [metricMap rev]. rewrite insert_insert_eq, <- app_assoc. reflexivity.
Qed.

End RegistryMore.

Lemma sampleRoutes_initialize :
  exists mc reg, metric.Initialize (metric.NewMetricPublisher, ∅) sampleRoutes = Ok (mc, reg).
Proof.
  destruct (Initialize_returns sampleRoutes (metric.NewMetricPublisher, ∅)) as [[mc reg] E].
  - change (NoDup ["GET_metrics"; "GET_health"]).
    apply NoDup_cons. split; [|apply NoDup_singleton].
    rewrite list_elem_of_singleton. discriminate.
  - intros route name _ _. apply not_elem_of_empty.
  - eauto.
Qed.

Lemma Initialize_registers_routes_witness :
  exists mc reg,
    metric.Initialize (metric.NewMetricPublisher, ∅) sampleRoutes = Ok (mc, reg)
    /\ In (fiber.mkRoute "GET" "/health") sampleRoutes
    /\ metric.metricMap mc !! "http_request_count_GET_health" = Some (prometheus.Counter 0)
    /\ metric.metricMap mc !! "http_request_duration_ms_GET_health"
       = Some (prometheus.Histogram metric.latencyBuckets []).
Proof.
  destruct sampleRoutes_initialize as (mc & reg & E).
  assert (Hin : In (fiber.mkRoute "GET" "/health") sampleRoutes) by (simpl; auto).
  destruct (Initialize_registers_routes sampleRoutes ∅ mc reg _ E Hin) as (Hc & Hd & _).
  exists mc, reg. auto.
Defined.

Lemma Initialize_returns_iff_witness :
  metric.Initialize (metric.NewMetricPublisher, ∅)
    [fiber.mkRoute "GET" "/v1"; fiber.mkRoute "GET" "/v2"]
  = Panic "duplicate metrics collector registration attempted".
Proof.
  destruct (Initialize_returns_iff [fiber.mkRoute "GET" "/v1"; fiber.mkRoute "GET" "/v2"] ∅)
    as [[Hok _] Hpanic].
  apply Hpanic. intros st' E.
  destruct (Hok (ex_intro _ st' E)) as [Hnd _].
  change (NoDup ["GET_v"; "GET_v"]) in Hnd.
  apply NoDup_cons in Hnd as [Hnotin _]. apply Hnotin. apply list_elem_of_singleton.
  reflexivity.
Defined.

Lemma micro_histogram_never_registered_witness :
  exists mc reg,
    metric.Initialize (metric.NewMetricPublisher, ∅) sampleRoutes = Ok (mc, reg)
    /\ metric.metricMap mc !! "http_request_duration_micro_GET_health" = None
    /\ metric.PublishHistogram mc metric.HttpRequestDurationMicroMetricName
         (ctxOf "GET" "/health") 3000 = Ok mc.
Proof.
  destruct sampleRoutes_initialize as (mc & reg & E).
  destruct (micro_histogram_never_registered sampleRoutes ∅ mc reg E) as [Hn Hp].
  exists mc, reg. split; [exact E|]. split; [exact (Hn "GET_health")|apply Hp].
Defined.

Lemma initialized_publisher_kinds_witness :
  exists mc reg,
    metric.Initialize (metric.NewMetricPublisher, ∅) sampleRoutes = Ok (mc, reg)
    /\ (exists mc', metric.PublishCounter mc metric.HttpRequestCountMetricName
                      (ctxOf "GET" "/health") = Ok mc')
    /\ metric.PublishCounter mc metric.HttpRequestDurationMetricName (ctxOf "GET" "/health")
       = Panic "interface conversion: interface {} is not prometheus.Counter".
Proof.
  destruct sampleRoutes_initialize as (mc & reg & E).
  destruct (initialized_publisher_kinds sampleRoutes ∅ mc reg E) as (Hc & _ & Hp).
  exists mc, reg. split; [exact E|]. split; [apply Hc|].
  refine (proj1 (Hp (fiber.mkRoute "GET" "/health") (ctxOf "GET" "/health") 0 _ eq_refl)).
  simpl. auto.
Defined.

Lemma publications_accumulate_witness :
  publishCounterTimes 3 (main.metricPublisher sampleWorld) metric.HttpRequestCountMetricName
    (ctxOf "GET" "/health")
  = Ok (metric.mkMetricPublisher
          (<["http_request_count_GET_health" := prometheus.Counter 3]>
             (metric.metricMap (main.metricPublisher sampleWorld)))).
Proof.
  refine (proj1 (publications_accumulate (ctxOf "GET" "/health")
                   metric.HttpRequestCountMetricName) 3%nat _ 0 _).
  cbn [main.metricPublisher sampleWorld metric.metricMap].
  rewrite lookup_insert_ne by discriminate. apply lookup_insert_eq.
Defined.

(** ** More on the identity cache *)

Section CacheMore.

Import main.

Local Arguments resolveUser : simpl never.

Lemma items_None l key :
  simplelru.items l key = None <-> ~ In key (List.map fst l).
Proof.
  induction l as [|e l IH]; simpl; [tauto|].
  destruct (String.eqb e.1 key) eqn:E.
  - apply String.eqb_eq in E. split; [discriminate|]. intros H. exfalso. auto.
  - apply String.eqb_neq in E. rewrite IH. tauto.
Qed.

Lemma filter_absent key (l : list string) :
  ~ In key l -> List.filter (fun x => negb (String.eqb x key)) l = l.
Proof.
  induction l as [|x l IH]; simpl; intros H; [reflexivity|].
  destruct (String.eqb x key) eqn:E.
  - apply String.eqb_eq in E. exfalso. auto.
  - simpl. rewrite IH by tauto. reflexivity.
Qed.

(** Removing the entry of a key from a list without duplicate keys removes
    the key from the keys and keeps the order of the others. *)
Lemma listRemove_keys l key :
  List.NoDup (List.map fst l) ->
  List.map fst (simplelru.listRemove l key)
  = List.filter (fun x => negb (String.eqb x key)) (List.map fst l).
Proof.
  induction l as [|e l IH]; simpl; intros H; [reflexivity|].
  inversion H as [|? ? Hnotin Hnd]; subst.
  destruct (String.eqb e.1 key) eqn:E; simpl.
  - apply String.eqb_eq in E. subst key. rewrite filter_absent by exact Hnotin. reflexivity.
  - rewrite IH by exact Hnd. reflexivity.
Qed.

Lemma removelast_keys (l : list simplelru.Entry) :
  List.map fst (removelast l) = removelast (List.map fst l).
Proof.
  induction l as [|e l IH]; [reflexivity|].
  destruct l as [|e' l]; [reflexivity|].
  cbn [removelast List.map] in *. rewrite IH. reflexivity.
Qed.

Lemma removelast_In (x : string) l : In x (removelast l) -> In x l.
Proof.
  induction l as [|y l IH]; [auto|]. destruct l as [|z l]; [intros []|].
  cbn [removelast]. intros [<-|H]; [left; reflexivity|right; auto].
Qed.

Lemma removelast_NoDup (l : list string) : List.NoDup l -> List.NoDup (removelast l).
Proof.
  induction l as [|y l IH]; [auto|]. intros H. inversion H as [|? ? Hnotin Hnd]; subst.
  destruct l as [|z l]; [constructor|].
  cbn [removelast]. constructor; [|auto].
  intros Hin. apply Hnotin. apply removelast_In. exact Hin.
Qed.

Lemma removelast_length (l : list string) : length (removelast l) = pred (length l).
Proof.
  induction l as [|y l IH]; [reflexivity|]. destruct l as [|z l]; [reflexivity|].
  cbn [removelast length] in *. rewrite IH. reflexivity.
Qed.

Lemma filter_length_le (f : string -> bool) l : (length (List.filter f l) <= length l)%nat.
Proof. induction l as [|x l IH]; simpl; [lia|]. destruct (f x); simpl; lia. Qed.

Lemma filter_not_In key (l : list string) :
  ~ In key (List.filter (fun x => negb (String.eqb x key)) l).
Proof.
  intros H. apply filter_In in H as [_ H]. rewrite String.eqb_refl in H. discriminate.
Qed.

Lemma filter_present_length key (l : list string) :
  In key l ->
  (S (length (List.filter (fun x => negb (String.eqb x key)) l)) <= length l)%nat.
Proof.
  induction l as [|x l IH]; simpl; intros H; [destruct H|].
  destruct (String.eqb x key) eqn:E; simpl.
  - pose proof (filter_length_le (fun x => negb (String.eqb x key)) l). lia.
  - apply String.eqb_neq in E. destruct H as [H|H]; [contradiction|].
    specialize (IH H). lia.
Qed.

Lemma items_In l key ent : simplelru.items l key = Some ent -> In key (List.map fst l).
Proof.
  intros H. destruct (in_dec string_dec key (List.map fst l)) as [Hin|Hn]; [exact Hin|].
  apply items_None in Hn. congruence.
Qed.

Lemma Keys_cons sz e l :
  simplelru.Keys (simplelru.mkLRU sz (e :: l)) = e.1 :: List.map fst l.
Proof. reflexivity. Qed.

(** The keys of the cache after a resolution, most recent first. *)
Lemma resolveUser_keys w c ip cache :
  userCache w = Some cache ->
  WellFormed cache ->
  exists id w' cache',
    resolveUser ip (w, c) = Ok (id, (w', c))
    /\ userCache w' = Some cache'
    /\ simplelru.size cache' = simplelru.size cache
    /\ simplelru.items (simplelru.evictList cache') ip = Some (ip, id)
    /\ simplelru.Keys cache'
       = (if simplelru.Contains cache ip
          then ip :: List.filter (fun x => negb (String.eqb x ip)) (simplelru.Keys cache)
          else if simplelru.size cache <? simplelru.Len cache + 1
               then removelast (ip :: simplelru.Keys cache)
               else ip :: simplelru.Keys cache)
    /\ (if simplelru.Contains cache ip
        then uuidsDrawn w' = uuidsDrawn w
             /\ simplelru.items (simplelru.evictList cache) ip = Some (ip, id)
        else uuidsDrawn w' = S (uuidsDrawn w) /\ id = uuids w (uuidsDrawn w)).
Proof.
  intros Hc (Hpos & Hlen & Hnd). unfold simplelru.Contains.
  destruct (simplelru.items (simplelru.evictList cache) ip) as [ent|] eqn:Hi.
  - rewrite (resolveUser_hit _ _ _ _ _ Hc Hi).
    pose proof (items_key _ _ _ Hi) as Hk. destruct ent as [k v]. simpl in Hk. subst k.
    eexists _, _, _. split; [reflexivity|]. cbn [userCache setUserCache fst snd].
    split; [reflexivity|]. unfold simplelru.MoveToFront. cbn [simplelru.size fst].
    split; [reflexivity|]. split; [apply items_head|].
    split; [|auto]. rewrite Keys_cons. unfold simplelru.Keys in *.
    rewrite listRemove_keys by exact Hnd. reflexivity.
  - rewrite (resolveUser_miss _ _ _ _ Hc Hi).
    eexists _, _, _. split; [reflexivity|]. cbn [userCache setUserCache drawUUID fst snd].
    split; [reflexivity|]. unfold simplelru.Add, simplelru.Len in *. rewrite Hi.
    cbn [simplelru.size simplelru.evictList length snd uuidsDrawn].
    replace (Z.of_nat (S (length (simplelru.evictList cache))))
      with (Z.of_nat (length (simplelru.evictList cache)) + 1) by lia.
    destruct (simplelru.size cache <? _) eqn:E.
    + unfold simplelru.removeOldest. cbn [simplelru.size simplelru.evictList].
      split; [reflexivity|]. split.
      * destruct (simplelru.evictList cache) as [|e l] eqn:El.
        -- exfalso. simpl in E. apply Z.ltb_lt in E. lia.
        -- cbn [removelast]. apply items_head.
      * split; [|auto]. unfold simplelru.Keys. cbn [simplelru.evictList].
        rewrite removelast_keys. reflexivity.
    + cbn [simplelru.size simplelru.evictList]. split; [reflexivity|].
      split; [apply items_head|]. split; [reflexivity|auto].
Qed.

Lemma Keys_length cache : Z.of_nat (length (simplelru.Keys cache)) = simplelru.Len cache.
Proof. unfold simplelru.Keys, simplelru.Len. rewrite length_map. reflexivity. Qed.

Lemma resolveUser_well_formed w c ip cache :
  userCache w = Some cache ->
  WellFormed cache ->
  exists id w' cache',
    resolveUser ip (w, c) = Ok (id, (w', c))
    /\ userCache w' = Some cache'
    /\ WellFormed cache'
    /\ simplelru.size cache' = simplelru.size cache.
Proof.
  intros Hc Hwf.
  destruct (resolveUser_keys w c ip cache Hc Hwf)
    as (id & w' & cache' & E & Hc' & Hsz & Hi & Hk & _).
  exists id, w', cache'. split; [exact E|]. split; [exact Hc'|]. split; [|exact Hsz].
  destruct Hwf as (Hpos & Hlen & Hnd). pose proof (Keys_length cache) as HL.
  unfold WellFormed. rewrite Hsz, <- (Keys_length cache'), Hk. split; [exact Hpos|].
  unfold simplelru.Contains.
  destruct (simplelru.items (simplelru.evictList cache) ip) as [ent|] eqn:Hit.
  - apply items_In in Hit. fold (simplelru.Keys cache) in Hit.
    pose proof (filter_present_length ip _ Hit) as Hl. split.
    + cbn [length]. lia.
    + constructor; [apply filter_not_In|apply List.NoDup_filter; exact Hnd].
  - apply items_None in Hit. fold (simplelru.Keys cache) in Hit.
    assert (Hnd' : List.NoDup (ip :: simplelru.Keys cache)) by (constructor; assumption).
    destruct (simplelru.size cache <? _) eqn:Hlt.
    + split; [|apply removelast_NoDup; exact Hnd'].
      rewrite removelast_length. cbn [length pred]. lia.
    + apply Z.ltb_ge in Hlt. split; [cbn [length]; lia|exact Hnd'].
Qed.

(** The cache never holds more entries than its capacity, nor a key twice:
    [NewLRU] creates it so, and every sequence of resolutions keeps it so;
    every resolution returns (no panic) with one identity per key. *)
Theorem cache_never_exceeds_capacity (ips : list string) :
  (forall n cache, simplelru.NewLRU n = Some cache ->
     WellFormed cache /\ simplelru.size cache = n)
  /\ (forall w c cache,
        userCache w = Some cache ->
        WellFormed cache ->
        exists ids w' cache',
          resolveEach ips (w, c) = Ok (ids, (w', c))
          /\ length ids = length ips
          /\ userCache w' = Some cache'
          /\ WellFormed cache'
          /\ simplelru.size cache' = simplelru.size cache).
Proof.
  split.
  - intros n cache. unfold simplelru.NewLRU. destruct (n <=? 0) eqn:E; [discriminate|].
    intros [= <-]. apply Z.leb_gt in E. split; [|reflexivity].
    split; [exact E|]. split; [unfold simplelru.Len; simpl; lia|constructor].
  - induction ips as [|ip rest IH]; intros w c cache Hc Hwf.
    + exists [], w, cache. auto.
    + destruct (resolveUser_well_formed w c ip cache Hc Hwf)
        as (id & w1 & cache1 & E & Hc1 & Hwf1 & Hsz1).
      destruct (IH w1 c cache1 Hc1 Hwf1) as (ids & w' & cache' & E' & Hl & Hc' & Hwf' & Hsz').
      exists (id :: ids), w', cache'. rewrite resolveEach_cons, E. cbn [rbind fst snd].
      rewrite E'. cbn [rbind fst snd]. split; [reflexivity|].
      split; [simpl; congruence|]. split; [exact Hc'|]. split; [exact Hwf'|congruence].
Qed.

(** The order of the keys after a resolution, most recent first: a resident
    key moves to the front over the others in their order and keeps its
    identity, without a new identifier being drawn; another key is put in
    front with the next identifier drawn, and when the cache was full the
    last key, the least recently used one, and only it, leaves. *)
Theorem cache_recency_order (w : World) (c : fiber.Ctx) (ip : string)
    (cache : simplelru.LRU) :
  userCache w = Some cache ->
  WellFormed cache ->
  exists id w' cache',
    resolveUser ip (w, c) = Ok (id, (w', c))
    /\ userCache w' = Some cache'
    /\ (simplelru.Contains cache ip = true ->
        simplelru.Keys cache'
        = ip :: List.filter (fun x => negb (String.eqb x ip)) (simplelru.Keys cache)
        /\ simplelru.items (simplelru.evictList cache) ip = Some (ip, id)
        /\ uuidsDrawn w' = uuidsDrawn w)
    /\ (simplelru.Contains cache ip = false ->
        id = uuids w (uuidsDrawn w)
        /\ uuidsDrawn w' = S (uuidsDrawn w)
        /\ (simplelru.Len cache < simplelru.size cache ->
            simplelru.Keys cache' = ip :: simplelru.Keys cache)
        /\ (simplelru.Len cache = simplelru.size cache ->
            simplelru.Keys cache' = ip :: removelast (simplelru.Keys cache))).
Proof.
  intros Hc Hwf.
  destruct (resolveUser_keys w c ip cache Hc Hwf)
    as (id & w' & cache' & E & Hc' & Hsz & Hi & Hk & Hd).
  exists id, w', cache'. split; [exact E|]. split; [exact Hc'|].
  destruct Hwf as (Hpos & Hlen & Hnd).
  destruct (simplelru.Contains cache ip); split; intros H; try discriminate H.
  - destruct Hd. auto.
  - destruct Hd as [Hd1 Hd2]. split; [exact Hd2|]. split; [exact Hd1|]. split.
    + intros Hlt. rewrite Hk. destruct (simplelru.size cache <? _) eqn:Eb; [|reflexivity].
      apply Z.ltb_lt in Eb. lia.
    + intros Heq. rewrite Hk. destruct (simplelru.size cache <? _) eqn:Eb.
      * destruct (simplelru.Keys cache) as [|k ks] eqn:Ek; [|reflexivity].
        exfalso. rewrite <- Keys_length, Ek in Heq. simpl in Heq. lia.
      * apply Z.ltb_ge in Eb. lia.
Qed.

End CacheMore.

Lemma cache_never_exceeds_capacity_witness :
  let w := worldWith (simplelru.NewLRU 2) (fun n => "id" +:+ main.FormatInt (Z.of_nat n)) in
  WellFormed (simplelru.mkLRU 2 [])
  /\ exists ids w' cache',
       resolveEach ["a"; "b"; "c"; "a"; "d"] (w, ctxOf "GET" "/health")
       = Ok (ids, (w', ctxOf "GET" "/health"))
       /\ main.userCache w' = Some cache'
       /\ simplelru.Len cache' <= 2.
Proof.
  intros w.
  destruct (cache_never_exceeds_capacity ["a"; "b"; "c"; "a"; "d"]) as [Hnew Hkeep].
  destruct (Hnew 2 (simplelru.mkLRU 2 []) eq_refl) as [Hwf _].
  split; [exact Hwf|].
  destruct (Hkeep w (ctxOf "GET" "/health") (simplelru.mkLRU 2 []) eq_refl Hwf)
    as (ids & w' & cache' & E & _ & Hc & (_ & Hlen & _) & Hsz).
  exists ids, w', cache'. split; [exact E|]. split; [exact Hc|].
  rewrite Hsz in Hlen. exact Hlen.
Defined.

Lemma cache_recency_order_witness :
  let cache := simplelru.mkLRU 2 [("b", "user-b"); ("a", "user-a")] in
  let w := worldWith (Some cache) (fun n => "id" +:+ main.FormatInt (Z.of_nat n)) in
  WellFormed cache
  /\ simplelru.Contains cache "c" = false
  /\ simplelru.Len cache = simplelru.size cache
  /\ exists w' cache',
       main.resolveUser "c" (w, ctxOf "GET" "/health")
       = Ok ("id0", (w', ctxOf "GET" "/health"))
       /\ main.userCache w' = Some cache'
       /\ simplelru.Keys cache' = ["c"; "b"].
Proof.
  intros cache w.
  assert (Hwf : WellFormed cache).
  { split; [reflexivity|]. split; [discriminate|].
    unfold simplelru.Keys. simpl.
    constructor; [simpl; intros [H|[]]; discriminate H|].
    constructor; [intros []|constructor]. }
  split; [exact Hwf|]. split; [reflexivity|]. split; [reflexivity|].
  destruct (cache_recency_order w (ctxOf "GET" "/health") "c" cache eq_refl Hwf)
    as (id & w' & cache' & E & Hc & _ & Hmiss).
  destruct (Hmiss eq_refl) as (Hid & _ & _ & Hfull).
  exists w', cache'. rewrite Hid in E. split; [exact E|]. split; [exact Hc|].
  exact (Hfull eq_refl).
Defined.

(** ** Start-up *)

Section Startup.

Import main.

Lemma route_names_not_ops route name :
  In name (routeNames route) -> name ∉ ({["myapp_processed_ops_total"]} ∪ ∅ : gset string).
Proof.
  intros Hin Hel. apply elem_of_union in Hel as [Hel|Hel]; [|exact (not_elem_of_empty _ Hel)].
  apply elem_of_singleton in Hel. subst name.
  unfold routeNames, metric.Sprintf_s_s in Hin. destruct Hin as [H|[H|[]]]; discriminate H.
Qed.

(** [main] up to [app.Listen], case by case. *)
Lemma startup_unfold env :
  startup env
  = if endpointOk env && samplerOk env && tracerOk env
    then rbind (metric.Initialize
                  (metric.NewMetricPublisher, {["myapp_processed_ops_total"]} ∪ ∅)
                  (GetRoutes env))
           (fun st =>
              Ok (mkWorld (String.eqb (ENV env) "prod", [])
                          (simplelru.NewLRU (cacheSize env)) st.1 st.2 0 startupTrace
                          (random env) 0%nat (time env) 0%nat))
    else Fatal "Error initializing Zipkin Tracer".
Proof.
  unfold startup, prometheus.MustRegister.
  rewrite decide_False by apply not_elem_of_empty. cbn [rbind].
  destruct (endpointOk env), (samplerOk env), (tracerOk env); reflexivity.
Qed.

(** Start-up succeeds exactly when the three constructors of the tracer
    succeed and the routes have pairwise distinct postfixes; in particular
    no value of CACHE_SIZE makes it fail. *)
Theorem startup_returns_iff (env : Env) :
  ((exists w, startup env = Ok w)
   <-> (endpointOk env = true /\ samplerOk env = true /\ tracerOk env = true
        /\ NoDup (List.map routePostfix (GetRoutes env))))
  /\ (forall s, (exists w, startup (withCacheSize s env) = Ok w)
                <-> (exists w, startup env = Ok w))
  /\ (forall msg, startup env = Fatal msg ->
        endpointOk env && samplerOk env && tracerOk env = false)
  /\ (forall msg, startup env = Panic msg ->
        ~ NoDup (List.map routePostfix (GetRoutes env))).
Proof.
  assert (Hiff : forall env',
    (exists w, startup env' = Ok w)
    <-> (endpointOk env' = true /\ samplerOk env' = true /\ tracerOk env' = true
         /\ NoDup (List.map routePostfix (GetRoutes env')))).
  { intros env'. rewrite startup_unfold. split.
    - intros [w H].
      destruct (endpointOk env'), (samplerOk env'), (tracerOk env'); try discriminate H.
      cbn [andb] in H.
      destruct (metric.Initialize _ (GetRoutes env')) as [st| |] eqn:E; try discriminate H.
      apply Initialize_ok_inv in E as [Hnd _]. auto.
    - intros (-> & -> & -> & Hnd). cbn [andb].
      destruct (Initialize_returns (GetRoutes env')
                  (metric.NewMetricPublisher, {["myapp_processed_ops_total"]} ∪ ∅) Hnd)
        as [st E].
      { intros route name _ Hname. exact (route_names_not_ops route name Hname). }
      rewrite E. cbn [rbind]. eauto. }
  split; [apply Hiff|]. split; [|split].
  - intros s. rewrite (Hiff env), (Hiff (withCacheSize s env)). reflexivity.
  - intros msg. rewrite startup_unfold.
    destruct (endpointOk env && samplerOk env && tracerOk env); [|reflexivity].
    destruct (metric.Initialize _ (GetRoutes env)) as [st|m|m] eqn:E; cbn [rbind];
      try discriminate.
    intros _. exfalso. revert E. clear. revert m.
    generalize (metric.NewMetricPublisher, ({["myapp_processed_ops_total"]} ∪ ∅ : gset string)).
    induction (GetRoutes env) as [|r rest IH]; cbn [metric.Initialize]; intros st m E;
      [discriminate E|].
    destruct (metric.installRoute st r) as [st1|m1|m1] eqn:E1; cbn [rbind] in E.
    + exact (IH _ _ E).
    + discriminate E.
    + exact (installRoute_never_fatal _ _ _ E1).
  - intros msg H Hnd.
    assert (Hok : exists w, startup env = Ok w).
    { apply Hiff. rewrite startup_unfold in H.
      destruct (endpointOk env), (samplerOk env), (tracerOk env); try discriminate H. auto. }
    destruct Hok as [w Hw]. congruence.
Qed.

(** The world start-up produces: the cache is what [NewLRU] returns for the
    capacity computed, so there is none when that capacity is not positive;
    the metric map holds the names of the routes, well typed; nothing has
    been processed. *)
Theorem startup_world (env : Env) (w : World) :
  startup env = Ok w ->
  userCache w = simplelru.NewLRU (cacheSize env)
  /\ (cacheSize env <= 0 <-> userCache w = None)
  /\ (0 < cacheSize env <-> Healthy w)
  /\ dom (metric.metricMap (metricPublisher w))
     = list_to_set (flat_map routeNames (GetRoutes env))
  /\ opsProcessed w = 0
  /\ uuidsDrawn w = 0%nat.
Proof.
  rewrite startup_unfold. intros H.
  destruct (endpointOk env && samplerOk env && tracerOk env); [|discriminate H].
  destruct (metric.Initialize _ (GetRoutes env)) as [st| |] eqn:E; try discriminate H.
  cbn [rbind] in H. injection H as <-.
  cbn [userCache metricPublisher opsProcessed uuidsDrawn].
  assert (Hw : WellTyped (metric.metricMap st.1)).
  { exact (Initialize_WellTyped (GetRoutes env)
             (metric.NewMetricPublisher, {["myapp_processed_ops_total"]} ∪ ∅) st
             WellTyped_empty E). }
  assert (Hnil : cacheSize env <= 0 <-> simplelru.NewLRU (cacheSize env) = None).
  { unfold simplelru.NewLRU. destruct (cacheSize env <=? 0) eqn:Eb.
    - apply Z.leb_le in Eb. tauto.
    - apply Z.leb_gt in Eb. split; [lia|discriminate]. }
  split; [reflexivity|]. split; [exact Hnil|]. split; [|split; [|auto]].
  - unfold Healthy. cbn [userCache metricPublisher]. split.
    + intros Hpos. split; [|exact Hw]. intros Hn. apply Hnil in Hn. lia.
    + intros [Hn _]. destruct (Z.lt_ge_cases 0 (cacheSize env)) as [|Hle]; [assumption|].
      exfalso. apply Hn, Hnil. lia.
  - apply Initialize_dom in E. cbn [fst metric.NewMetricPublisher metric.metricMap] in E.
    rewrite E, dom_empty_L. set_solver.
Qed.

Lemma digit_range c d : strconv.digit c = Some d -> 0 <= d <= 9.
Proof.
  unfold strconv.digit.
  destruct ((48 <=? Z.of_N (N_of_ascii c)) && (Z.of_N (N_of_ascii c) <=? 57)) eqn:E;
    [|discriminate].
  intros [= <-]. apply andb_true_iff in E as [E1 E2].
  apply Z.leb_le in E1. apply Z.leb_le in E2. lia.
Qed.

Lemma parseUintFrom_range s : forall n,
  0 <= n <= strconv.maxUint64 ->
  0 <= (strconv.parseUintFrom s n).1 <= strconv.maxUint64
  /\ ((strconv.parseUintFrom s n).2 = Some strconv.ErrSyntax ->
      (strconv.parseUintFrom s n).1 = 0).
Proof.
  induction s as [|c s IH]; intros n Hn; cbn [strconv.parseUintFrom].
  - cbn [fst snd]. split; [exact Hn|discriminate].
  - destruct (strconv.digit c) as [d|] eqn:Ed.
    + apply digit_range in Ed.
      destruct (strconv.cutoff10 <=? n);
        [cbn [fst snd]; split; [unfold strconv.maxUint64; lia|discriminate]|].
      cbv zeta. destruct (strconv.maxUint64 <? n * 10 + d) eqn:El.
      * cbn [fst snd]. split; [unfold strconv.maxUint64; lia|discriminate].
      * apply Z.ltb_ge in El. apply IH. lia.
    + cbn [fst snd]. split; [unfold strconv.maxUint64; lia|reflexivity].
Qed.

Lemma ParseUint_range s :
  0 <= (strconv.ParseUint s).1 <= strconv.maxUint64
  /\ ((strconv.ParseUint s).2 = Some strconv.ErrSyntax -> (strconv.ParseUint s).1 = 0).
Proof.
  unfold strconv.ParseUint. destruct s as [|c s].
  - cbn [fst snd]. split; [unfold strconv.maxUint64; lia|reflexivity].
  - apply parseUintFrom_range. unfold strconv.maxUint64. lia.
Qed.

Lemma ParseInt_range s :
  - 2 ^ 63 <= (strconv.ParseInt s).1 < 2 ^ 63
  /\ ((strconv.ParseInt s).2 = Some strconv.ErrSyntax -> (strconv.ParseInt s).1 = 0)
  /\ ((strconv.ParseInt s).2 = Some strconv.ErrRange ->
      (strconv.ParseInt s).1 = 2 ^ 63 - 1 \/ (strconv.ParseInt s).1 = - 2 ^ 63).
Proof.
  unfold strconv.ParseInt. destruct s as [|c0 rest].
  - cbn [fst snd]. split; [lia|]. split; [reflexivity|discriminate].
  - set (neg := Ascii.eqb c0 "-"%char).
    set (s' := if Ascii.eqb c0 "+"%char || neg then rest else String c0 rest).
    cbv zeta. pose proof (ParseUint_range s') as [Hr Hs].
    destruct (strconv.ParseUint s') as [un err]. cbn [fst snd] in *.
    destruct err as [[|]|].
    + cbn [fst snd]. split; [lia|]. split; [reflexivity|discriminate].
    + destruct (negb neg && (2 ^ 63 <=? un)) eqn:E1;
        [cbn [fst snd]; split; [lia|split; [discriminate|auto]]|].
      destruct (neg && (2 ^ 63 <? un)) eqn:E2;
        [cbn [fst snd]; split; [lia|split; [discriminate|auto]]|].
      cbn [fst snd]. split; [|split; discriminate].
      destruct neg; cbn [negb andb] in *.
      * apply Z.ltb_ge in E2. lia.
      * apply Z.leb_gt in E1. lia.
    + destruct (negb neg && (2 ^ 63 <=? un)) eqn:E1;
        [cbn [fst snd]; split; [lia|split; [discriminate|auto]]|].
      destruct (neg && (2 ^ 63 <? un)) eqn:E2;
        [cbn [fst snd]; split; [lia|split; [discriminate|auto]]|].
      cbn [fst snd]. split; [|split; discriminate].
      destruct neg; cbn [negb andb] in *.
      * apply Z.ltb_ge in E2. lia.
      * apply Z.leb_gt in E1. lia.
Qed.

(** The capacity computed from CACHE_SIZE: 100 when the variable is empty or
    unset; otherwise the value [ParseInt] returns whatever its error, which
    the conversion to [int] leaves as it is: 0 after a syntax error, the
    largest or the smallest 64-bit integer after a range error. *)
Theorem cacheSize_values (env : Env) :
  (CACHE_SIZE env = "" -> cacheSize env = 100)
  /\ (CACHE_SIZE env <> "" ->
      cacheSize env = (strconv.ParseInt (CACHE_SIZE env)).1
      /\ ((strconv.ParseInt (CACHE_SIZE env)).2 = Some strconv.ErrSyntax ->
          cacheSize env = 0)
      /\ ((strconv.ParseInt (CACHE_SIZE env)).2 = Some strconv.ErrRange ->
          cacheSize env = 2 ^ 63 - 1 \/ cacheSize env = - 2 ^ 63))
  /\ - 2 ^ 63 <= cacheSize env < 2 ^ 63.
Proof.
  unfold cacheSize. pose proof (ParseInt_range (CACHE_SIZE env)) as (Hr & Hs & Hg).
  assert (Hid : int_of_int64 (strconv.ParseInt (CACHE_SIZE env)).1
                = (strconv.ParseInt (CACHE_SIZE env)).1).
  { unfold int_of_int64. rewrite Z.mod_small by lia. lia. }
  destruct (String.eqb (CACHE_SIZE env) "") eqn:E; cbn [negb].
  - apply String.eqb_eq in E. split; [reflexivity|]. split; [contradiction|lia].
  - apply String.eqb_neq in E. rewrite Hid. split; [contradiction|]. split; [|exact Hr].
    intros _. auto.
Qed.

End Startup.

Lemma sampleEnv_starts (s : string) : exists w, main.startup (sampleEnv s) = Ok w.
Proof.
  rewrite startup_unfold. cbn [main.endpointOk main.samplerOk main.tracerOk sampleEnv andb].
  destruct (Initialize_returns sampleRoutes
              (metric.NewMetricPublisher, {["myapp_processed_ops_total"]} ∪ ∅)) as [st E].
  - change (NoDup ["GET_metrics"; "GET_health"]).
    apply NoDup_cons. split; [|apply NoDup_singleton].
    rewrite list_elem_of_singleton. discriminate.
  - intros route name _ Hname. exact (route_names_not_ops route name Hname).
  - cbn [main.GetRoutes sampleEnv]. rewrite E. cbn [rbind]. eauto.
Qed.

Lemma startup_returns_iff_witness :
  (exists w, main.startup (sampleEnv "0") = Ok w)
  /\ (exists w, main.startup (withCacheSize "not a number" (sampleEnv "0")) = Ok w).
Proof.
  destruct (startup_returns_iff (sampleEnv "0")) as ([_ Hok] & Hany & _).
  assert (H : exists w, main.startup (sampleEnv "0") = Ok w).
  { apply Hok. repeat split; try reflexivity.
    change (NoDup ["GET_metrics"; "GET_health"]).
    apply NoDup_cons. split; [|apply NoDup_singleton].
    rewrite list_elem_of_singleton. discriminate. }
  split; [exact H|]. apply Hany. exact H.
Defined.

Lemma startup_world_witness :
  exists w, main.startup (sampleEnv "abc") = Ok w
    /\ main.cacheSize (sampleEnv "abc") = 0
    /\ main.userCache w = None.
Proof.
  destruct (sampleEnv_starts "abc") as [w E]. exists w. split; [exact E|].
  split; [reflexivity|].
  destruct (startup_world (sampleEnv "abc") w E) as (_ & [Hnil _] & _).
  apply Hnil. discriminate.
Defined.

Lemma cacheSize_values_witness :
  main.CACHE_SIZE (sampleEnv "12x") <> ""
  /\ (strconv.ParseInt "12x").2 = Some strconv.ErrSyntax
  /\ main.cacheSize (sampleEnv "12x") = 0
  /\ main.cacheSize (sampleEnv "") = 100.
Proof.
  destruct (cacheSize_values (sampleEnv "12x")) as (_ & Hv & _).
  destruct (cacheSize_values (sampleEnv "")) as (He & _).
  split; [discriminate|]. split; [reflexivity|].
  split; [exact (proj1 (proj2 (Hv ltac:(discriminate))) eq_refl)|exact (He eq_refl)].
Defined.

(** ** Requests resolved at the same time *)

Section Interleaving.

Import main.

Local Arguments resolveUser : simpl never.










End Interleaving.



(** Another schedule the block allows: a request finds its key resident,
    the [Add] of another request evicts the key, and the [Get] that follows
    finds nothing; its second result being discarded, the request goes on
    with the empty string as its identity. *)
Lemma get_after_eviction_gives_empty_identity :
  let cache := simplelru.mkLRU 1 [("10.0.0.1", "known")] in
  let w := worldWith (Some cache) (fun n => "id" +:+ main.FormatInt (Z.of_nat n)) in
  exists w',
    interleave [First; Second; Second; Second; First]
      (AtContains "10.0.0.1") (AtContains "10.0.0.2") w
    = Ok (Resolved "", Resolved "id0", w')
    /\ main.userCache w' = Some (simplelru.mkLRU 1 [("10.0.0.2", "id0")]).
Proof. intros cache w. eexists. split; reflexivity. Qed.

(** ** The pipeline and start-up against their descriptions *)

Section Pipeline.

Import main fiber.

Variable routeMatches : string -> string -> Request -> bool.

(** C8.  When the limiter rejects a request, the response is the JSON
    encoding of an [ErrorResponse] holding the time of the rejection and the
    message of the limiter, and nothing downstream runs: the world after the
    request is the world before it but for that one reading of the clock, so
    the handler of the route has opened no span, written no log line and
    produced no payload. *)
Theorem rejection_skips_handler (retryAfter : string) (r : Request) (w : World) :
  reachesLimiter routeMatches r = true ->
  exists resp,
    serve routeMatches (Reject retryAfter) r w = Ok (resp, readClock w)
    /\ respBody resp = JSON (model.ErrorResponse (clock w (clockReads w)) limitMessage)
    /\ respHeader resp !! HeaderContentType = Some MIMEApplicationJSON
    /\ (forall now status, respBody resp <> JSON (model.HealthCheckResponse now status))
    /\ trace (readClock w) = trace w
    /\ opsProcessed (readClock w) = opsProcessed w.
Proof.
  intros H. eexists. split; [apply (serve_rejected _ _ _ _ H)|].
  cbn [respBody respHeader]. split; [reflexivity|].
  split; [apply lookup_insert_eq|]. split; [discriminate|]. split; reflexivity.
Qed.

(** C4, as the code has it.  The response to a request that the limiter
    accepts carries the header X-Request-ID with the identifier of the
    request: the one the request brought in that header when it is not
    empty, the next one generated otherwise.  The response to a request
    that the limiter rejects carries no such header, the limiter being
    bound before the request-id middleware; nor does a response of the
    route /metrics or of the profiler, bound before both. *)
Theorem request_id_where_bound (r : Request) (w : World) :
  (reachesLimiter routeMatches r = true ->
   Healthy w ->
   forall remaining reset, exists resp w',
     serve routeMatches (Accept remaining reset) r w = Ok (resp, w')
     /\ respHeader resp !! HeaderXRequestID = Some (requestIdOf r w)
     /\ (forall rid, Header r !! HeaderXRequestID = Some rid -> rid <> "" ->
           requestIdOf r w = rid)
     /\ (default "" (Header r !! HeaderXRequestID) = "" ->
           requestIdOf r w = uuids w (uuidsDrawn w)))
  /\ (reachesLimiter routeMatches r = true ->
      forall retryAfter, exists resp w',
        serve routeMatches (Reject retryAfter) r w = Ok (resp, w')
        /\ respHeader resp !! HeaderXRequestID = None)
  /\ (reachesLimiter routeMatches r = false ->
      forall decision, exists resp,
        serve routeMatches decision r w = Ok (resp, w)
        /\ respHeader resp !! HeaderXRequestID = None).
Proof.
  split; [|split].
  - intros H Hh remaining reset.
    destruct (serve_accepted routeMatches remaining reset r w H Hh)
      as (resp & w' & E & Hr & _).
    exists resp, w'. split; [exact E|]. split; [exact Hr|].
    unfold requestIdOf. split.
    + intros rid Hrid Hne. rewrite Hrid. cbn [from_option]. unfold id.
      destruct (String.eqb_spec rid ""); [contradiction|reflexivity].
    + intros ->. reflexivity.
  - intros H retryAfter. eexists _, _. split; [apply (serve_rejected _ _ _ _ H)|].
    cbn [respHeader]. rewrite !lookup_insert_ne by discriminate. apply lookup_empty.
  - unfold reachesLimiter. intros H decision.
    destruct (routeMatches "GET" "/metrics" r) eqn:Hm.
    + rewrite (serve_metrics _ _ _ _ Hm). eexists. split; [reflexivity|]. apply lookup_empty.
    + cbn [negb andb] in H. rewrite (serve_pprof _ _ _ _ Hm H).
      eexists. split; [reflexivity|]. apply lookup_empty.
Qed.

(** C1, as the code has it.  For a request that the limiter accepts the
    logging middleware publishes, after the rest of the chain has returned,
    to the counter of the route and to its millisecond histogram, and the
    metrics after the request are the result of these two publications.
    The publication under the microsecond name changes nothing: the metric
    map holds no histogram under that name for any route, [Initialize]
    registering none. *)
Theorem microsecond_observation_dropped (remaining reset : string) (r : Request)
    (w : World) :
  reachesLimiter routeMatches r = true ->
  Healthy w ->
  exists resp w' millis mc1,
    serve routeMatches (Accept remaining reset) r w = Ok (resp, w')
    /\ metric.PublishCounter (metricPublisher w) metric.HttpRequestCountMetricName
         (AcquireCtx r) = Ok mc1
    /\ metric.PublishHistogram mc1 metric.HttpRequestDurationMetricName
         (AcquireCtx r) millis = Ok (metricPublisher w')
    /\ (forall c micros,
          metric.PublishHistogram (metricPublisher w')
            metric.HttpRequestDurationMicroMetricName c micros
          = Ok (metricPublisher w'))
    /\ (forall x,
          metric.metricMap (metricPublisher w)
            !! metric.Sprintf_s_s metric.HttpRequestDurationMicroMetricName x = None)
    /\ (forall x,
          metric.metricMap (metricPublisher w')
            !! metric.Sprintf_s_s metric.HttpRequestDurationMicroMetricName x = None).
Proof.
  intros H Hh.
  destruct (serve_accepted routeMatches remaining reset r w H Hh)
    as (resp & w' & E & _ & Hh' & _ & (millis & mc1 & E1 & E2) & _).
  exists resp, w', millis, mc1. split; [exact E|]. split; [exact E1|].
  split; [exact E2|]. destruct Hh as [_ Hw]. destruct Hh' as [_ Hw'].
  split; [|split].
  - intros c micros. exact (PublishHistogram_micro_dropped _ _ _ Hw').
  - intros x. exact (WellTyped_micro _ _ Hw).
  - intros x. exact (WellTyped_micro _ _ Hw').
Qed.

(** C3, as the code has it.  Start-up does not reject a capacity that is
    not positive: whenever the tracer is built and the route names are
    distinct it returns, with no cache. *)
Theorem nonpositive_capacity_starts (env : Env) :
  endpointOk env = true -> samplerOk env = true -> tracerOk env = true ->
  NoDup (List.map routePostfix (GetRoutes env)) ->
  cacheSize env <= 0 ->
  exists w, startup env = Ok w /\ userCache w = None.
Proof.
  intros He Hs Ht Hnd Hsz. rewrite startup_unfold, He, Hs, Ht. cbn [andb].
  destruct (Initialize_returns (GetRoutes env)
              (metric.NewMetricPublisher, {["myapp_processed_ops_total"]} ∪ ∅) Hnd)
    as [st E].
  { intros route name _ Hname. exact (route_names_not_ops route name Hname). }
  rewrite E. cbn [rbind]. eexists. split; [reflexivity|]. cbn [userCache].
  unfold simplelru.NewLRU. destruct (cacheSize env <=? 0) eqn:Eb; [reflexivity|].
  apply Z.leb_gt in Eb. lia.
Qed.

End Pipeline.

Lemma rejection_skips_handler_witness :
  reachesLimiter exactRoute (healthRequest "10.0.0.1") = true
  /\ exists resp w',
       main.serve exactRoute (main.Reject "60") (healthRequest "10.0.0.1") sampleWorld
       = Ok (resp, w')
       /\ fiber.respBody resp = fiber.JSON (model.ErrorResponse 0 main.limitMessage)
       /\ main.trace w' = [].
Proof.
  split; [reflexivity|].
  destruct (rejection_skips_handler exactRoute "60" (healthRequest "10.0.0.1")
              sampleWorld eq_refl)
    as (resp & E & Hb & _ & _ & Ht & _).
  exists resp, (main.readClock sampleWorld). auto.
Defined.

Lemma request_id_where_bound_witness :
  (exists resp w',
     main.serve exactRoute (main.Accept "29" "60") (healthRequest "10.0.0.1") sampleWorld
     = Ok (resp, w')
     /\ fiber.respHeader resp !! fiber.HeaderXRequestID = Some "uuid-0")
  /\ (exists resp w',
        main.serve exactRoute (main.Reject "60") (healthRequest "10.0.0.1") sampleWorld
        = Ok (resp, w')
        /\ fiber.respHeader resp !! fiber.HeaderXRequestID = None).
Proof.
  destruct (request_id_where_bound exactRoute (healthRequest "10.0.0.1") sampleWorld)
    as (Hacc & Hrej & _).
  split.
  - destruct (Hacc eq_refl sampleWorld_healthy "29" "60") as (resp & w' & E & Hr & _).
    exists resp, w'. split; [exact E|exact Hr].
  - exact (Hrej eq_refl "60").
Defined.

(** C4 as stated fails: the response to a rejected request, and the
    response of the route /metrics, carry no request-id header. *)
Lemma response_without_request_id :
  (exists resp w',
     main.serve exactRoute (main.Reject "60") (healthRequest "10.0.0.1") sampleWorld
     = Ok (resp, w')
     /\ fiber.respHeader resp !! fiber.HeaderXRequestID = None)
  /\ (exists resp w',
        main.serve exactRoute (main.Accept "29" "60")
          (fiber.mkRequest "GET" "/metrics" "10.0.0.1" ∅) sampleWorld
        = Ok (resp, w')
        /\ fiber.respHeader resp !! fiber.HeaderXRequestID = None).
Proof.
  split.
  - rewrite (serve_rejected exactRoute "60" (healthRequest "10.0.0.1") sampleWorld eq_refl).
    eexists _, _. split; [reflexivity|]. cbn [fiber.respHeader].
    rewrite !lookup_insert_ne by discriminate. apply lookup_empty.
  - rewrite (serve_metrics exactRoute (main.Accept "29" "60")
               (fiber.mkRequest "GET" "/metrics" "10.0.0.1" ∅) sampleWorld eq_refl).
    eexists _, _. split; [reflexivity|]. apply lookup_empty.
Qed.

Lemma microsecond_observation_dropped_witness :
  reachesLimiter exactRoute (healthRequest "10.0.0.1") = true
  /\ Healthy sampleWorld
  /\ exists resp w',
       main.serve exactRoute (main.Accept "29" "60") (healthRequest "10.0.0.1") sampleWorld
       = Ok (resp, w')
       /\ metric.metricMap (main.metricPublisher w')
            !! "http_request_duration_micro_GET_health" = None
       /\ metric.PublishHistogram (main.metricPublisher w')
            metric.HttpRequestDurationMicroMetricName (ctxOf "GET" "/health") 1000
          = Ok (main.metricPublisher w').
Proof.
  split; [reflexivity|]. split; [exact sampleWorld_healthy|].
  destruct (microsecond_observation_dropped exactRoute "29" "60" (healthRequest "10.0.0.1")
              sampleWorld eq_refl sampleWorld_healthy)
    as (resp & w' & millis & mc1 & E & _ & _ & Hd & _ & Hn).
  exists resp, w'. split; [exact E|]. split; [exact (Hn "GET_health")|apply Hd].
Defined.

Lemma nonpositive_capacity_starts_witness :
  main.cacheSize (sampleEnv "0") = 0
  /\ main.cacheSize (sampleEnv "abc") = 0
  /\ main.cacheSize (sampleEnv "-5") = -5
  /\ (exists w, main.startup (sampleEnv "0") = Ok w /\ main.userCache w = None)
  /\ (exists w, main.startup (sampleEnv "abc") = Ok w /\ main.userCache w = None)
  /\ (exists w, main.startup (sampleEnv "-5") = Ok w /\ main.userCache w = None).
Proof.
  assert (Hnd : NoDup (List.map routePostfix sampleRoutes)).
  { change (NoDup ["GET_metrics"; "GET_health"]).
    apply NoDup_cons. split; [|apply NoDup_singleton].
    rewrite list_elem_of_singleton. discriminate. }
  split; [reflexivity|]. split; [reflexivity|]. split; [reflexivity|].
  split; [|split].
  - apply (nonpositive_capacity_starts (sampleEnv "0") eq_refl eq_refl eq_refl Hnd).
    vm_compute. discriminate.
  - apply (nonpositive_capacity_starts (sampleEnv "abc") eq_refl eq_refl eq_refl Hnd).
    vm_compute. discriminate.
  - apply (nonpositive_capacity_starts (sampleEnv "-5") eq_refl eq_refl eq_refl Hnd).
    vm_compute. discriminate.
Defined.
